(** * constexpr-everything: the eligibility passes of [main.cpp]

    A shallow embedding of the two AST visitors of the tool and of the two
    legality checkers that live in its anonymous namespace, together with
    the properties of the specification that concern them.

    What comes from Clang (the syntax tree, [Sema], the diagnostics engine,
    [RecursiveASTVisitor]) is modelled only as far as [main.cpp] uses it:
    - a declaration is addressed by a [DeclID] (its node identity) and the
      one bit the tool writes, [setConstexpr], lives in a store keyed by it;
    - the answers of [Sema::CheckConstexprFunctionDecl] and
      [Sema::CheckConstexprFunctionBody] are fields of a [Sema] record, and
      the answers of the [Type], [Expr] and [VarDecl] queries are fields of
      the node they are asked of;
    - the diagnostics engine is a suppression flag and the list of the
      diagnostics reported so far. *)

From Stdlib Require Import List Bool Arith String Lia.
From stdpp Require Import base gmap sets.
Import ListNotations.

Set Warnings "-register-all".

(** ** Source locations *)

Definition SourceLocation := nat.

(** [SourceLocation::isValid]: the raw encoding 0 is the invalid location. *)
Definition isValid (L : SourceLocation) : bool := negb (L =? 0).

Record SourceRange := mkRange {
  getBegin : SourceLocation;
  getEnd : SourceLocation
}.

Record SourceManager := {
  isWrittenInMainFile : SourceLocation -> bool
}.

(** ** Types and expressions, with the queries [main.cpp] asks of them *)

Record QualType := mkType {
  spelling : string;
  isDependentType : bool;
  isLiteralType : bool;
  isVariablyModifiedType : bool
}.

Record Expr := mkExpr {
  isValueDependent : bool
}.

(** ** Declarations *)

Definition DeclID := nat.

Inductive TLSKind :=
  | TLS_None | TLS_Static | TLS_Dynamic.

Definition TLSKind_eqb (a b : TLSKind) : bool :=
  match a, b with
  | TLS_None, TLS_None | TLS_Static, TLS_Static
  | TLS_Dynamic, TLS_Dynamic => true
  | _, _ => false
  end.

Record VarDecl := mkVar {
  varID : DeclID;
  getLocation : SourceLocation;
  getType : QualType;
  isThisDeclarationADefinition : bool;
  isStaticLocal : bool;
  getTLSKind : TLSKind;
  getInit : option Expr;
  isCXXForRangeDecl : bool;
  (* results of the constant-evaluation queries on the initializer *)
  checkInitIsICE : bool;
  evaluateValue : bool;          (* true when a value (non-null) comes back *)
  isInitICE : bool
}.

Definition hasInit (VD : VarDecl) : bool :=
  match getInit VD with Some _ => true | None => false end.

Record TypedefNameDecl := mkTypedef {
  getUnderlyingType : QualType;
  TypeLoc_getSourceRange : SourceRange;
  TypeLoc_getType : QualType
}.

Record ParmVarDecl := mkParm {
  parmLocation : SourceLocation;
  parmSourceRange : SourceRange
}.

(** The kinds of [FunctionDecl] nodes ([Decl::Function] and its subclasses). *)
Inductive FunctionKind :=
  | Function | CXXMethod | CXXConstructor | CXXDestructor | CXXConversion.

(** One function parameter: its type in the [FunctionProtoType] and the
    [ParmVarDecl] that [getParamDecl] returns at the same index. *)
Record Param := mkParam {
  param_type : QualType;
  getParamDecl : ParmVarDecl
}.

Record FunctionDecl := mkFunction {
  funcID : DeclID;
  funcKind : FunctionKind;
  funcBegin : SourceLocation;       (* getSourceRange().getBegin() *)
  isMain : bool;
  params : list Param
}.

Definition isa_CXXConstructorDecl (Dcl : FunctionDecl) : bool :=
  match funcKind Dcl with CXXConstructor => true | _ => false end.

(** Declaration kinds that carry no payload the tool reads. *)
Inductive LeafKind :=
  | StaticAssert | Using | UsingShadow | UsingDirective
  | UnresolvedUsingTypename | UnresolvedUsingValue
  | EnumConstant | IndirectField
  | NamespaceAlias
  | Label | Empty | UsingPack | Binding.

Inductive TagKind :=
  | Enum | CXXRecord | Record_.

Inductive VarKind :=
  | Var | Decomposition | ParmVar | ImplicitParam.

Inductive ContextKind :=
  | TranslationUnit | Namespace | LinkageSpec.

(** The syntax tree. A [D_Tag] owns its member declarations (the methods of
    a class defined inside a function body among them), a [D_Function] its
    body, a [DeclStmt] the declarations it introduces. *)
Inductive Decl :=
  | D_Leaf (K : LeafKind)
  | D_TypedefName (alias : bool) (TN : TypedefNameDecl)
  | D_Tag (K : TagKind) (isDefinition : bool) (members : list Decl)
  | D_Var (K : VarKind) (VD : VarDecl)
  | D_Function (FD : FunctionDecl) (Body : option Stmt)
  | D_Context (K : ContextKind) (decls : list Decl)
with Stmt :=
  | DeclStmt (BeginLoc : SourceLocation) (decls : list Decl)
  | CompoundStmt (body : list Stmt)
  | OtherStmt (children : list Stmt).

(** [dyn_cast<VarDecl>]: every [VarKind] is a subclass of [VarDecl]. *)
Definition dyn_cast_VarDecl (D : Decl) : option VarDecl :=
  match D with
  | D_Var _ VD => Some VD
  | _ => None
  end.

(** ** Diagnostics *)

Inductive Level :=
  | Ignored | Note | Remark | Warning | Error | Fatal.

Inductive DiagID :=
  | err_constexpr_vla
  | warn_cxx11_compat_constexpr_type_definition
  | ext_constexpr_type_definition
  | err_constexpr_local_var_static
  | err_constexpr_local_var_non_literal_type
  | err_constexpr_local_var_no_init
  | warn_cxx11_compat_constexpr_local_var
  | ext_constexpr_local_var
  | err_constexpr_body_invalid_stmt
  | err_constexpr_non_literal_param
  | sema_internal (n : nat)                         (* any other built-in *)
  | getCustomDiagID (L : Level) (FormatString : string).

Inductive DiagArg :=
  | arg_bool (b : bool)
  | arg_uint (n : nat)
  | arg_range (R : SourceRange)
  | arg_type (T : QualType).

Record FixItHint := CreateInsertion {
  InsertionLoc : SourceLocation;
  CodeToInsert : string
}.

Record Diagnostic := mkDiag {
  diagLoc : SourceLocation;
  diagID : DiagID;
  diagArgs : list DiagArg;
  FixIts : list FixItHint
}.

Record DiagnosticsEngine := mkEngine {
  SuppressAllDiagnostics : bool;
  reported : list Diagnostic
}.

(** ** The state the passes run in

    [constexprDecls] holds the declarations whose constexpr bit is set;
    [Diagnostics] is the one engine that [Sema] and both visitors share. *)
Record CompilerInstance := mkCI {
  constexprDecls : gset DeclID;
  Diagnostics : DiagnosticsEngine
}.

(** ** A state monad over [CompilerInstance] *)

Definition M (A : Type) : Type := CompilerInstance -> A * CompilerInstance.

Definition ret {A} (a : A) : M A := fun CI => (a, CI).

Definition bind {A B} (m : M A) (k : A -> M B) : M B :=
  fun CI => let (a, CI') := m CI in k a CI'.

Declare Scope ci_scope.
Delimit Scope ci_scope with ci.
Notation "x <- m ;; k" := (bind m (fun x => k))
  (at level 100, m at next level, right associativity) : ci_scope.
Notation "m ;;; k" := (bind m (fun _ => k))
  (at level 100, right associativity) : ci_scope.
Local Open Scope ci_scope.

Definition isConstexpr (id : DeclID) : M bool :=
  fun CI => (bool_decide (id ∈ constexprDecls CI), CI).

(** [setConstexpr(true)] *)
Definition setConstexpr (id : DeclID) : M unit :=
  fun CI => (tt, mkCI ({[ id ]} ∪ constexprDecls CI) (Diagnostics CI)).

Definition setSuppressAllDiagnostics (Val : bool) : M unit :=
  fun CI => (tt, mkCI (constexprDecls CI)
                      (mkEngine Val (reported (Diagnostics CI)))).

(** [DiagnosticsEngine::Report]: dropped while suppression is on. *)
Definition Report (D : Diagnostic) : M unit :=
  fun CI =>
    if SuppressAllDiagnostics (Diagnostics CI) then (tt, CI)
    else (tt, mkCI (constexprDecls CI)
                   (mkEngine false (reported (Diagnostics CI) ++ [D]))).

Fixpoint ReportAll (Ds : list Diagnostic) : M unit :=
  match Ds with
  | [] => ret tt
  | D :: Ds' => Report D ;;; ReportAll Ds'
  end.

(** ** Sema

    [Sema::CheckConstexprFunctionDecl] and [Sema::CheckConstexprFunctionBody]
    are Clang's: each answers with a verdict and the diagnostics it raises
    on the way, which go through [Report] like any other. Their answers are
    functions of the declaration they are asked about. *)
Record Sema := mkSema {
  CPlusPlus14 : bool;                                (* getLangOpts() *)
  Sema_CheckConstexprFunctionDecl :
    FunctionDecl -> option Stmt -> bool * list Diagnostic;
  Sema_CheckConstexprFunctionBody :
    FunctionDecl -> option Stmt -> bool * list Diagnostic
}.

Definition CheckConstexprFunctionDecl (S : Sema) (func : FunctionDecl)
    (Body : option Stmt) : M bool :=
  let (ok, Ds) := Sema_CheckConstexprFunctionDecl S func Body in
  ReportAll Ds ;;; ret ok.

Definition CheckConstexprFunctionBody (S : Sema) (func : FunctionDecl)
    (Body : option Stmt) : M bool :=
  let (ok, Ds) := Sema_CheckConstexprFunctionBody S func Body in
  ReportAll Ds ;;; ret ok.

(** [SemaRef.Diag(Loc, ID) << args] *)
Definition Diag (Loc : SourceLocation) (ID : DiagID) (Args : list DiagArg)
    : M unit :=
  Report (mkDiag Loc ID Args []).

(** [Sema::RequireLiteralType]: true (and a diagnostic) when [T] is NOT a
    literal type, false when it is. Clang follows the diagnostic of a class
    type with notes that say why the class is not literal; they are left
    out here. *)
Definition RequireLiteralType (Loc : SourceLocation) (T : QualType)
    (ID : DiagID) (Args : list DiagArg) : M bool :=
  if isLiteralType T then ret false
  else Diag Loc ID (Args ++ [arg_type T]) ;;; ret true.

(** ** The checkers of the anonymous namespace *)

(** [CheckConstexprDeclStmt], lines 23-127. The loop over [DS->decls()] is
    the recursion on the list; [continue] is the recursive call and every
    [return false] leaves the rest of the list alone. The in/out parameter
    [Cxx1yLoc] is returned next to the verdict. *)
Fixpoint CheckConstexprDeclStmt (SemaRef : Sema) (Dcl : FunctionDecl)
    (DS_getBeginLoc : SourceLocation) (DS_decls : list Decl)
    (Cxx1yLoc : SourceLocation) : M (bool * SourceLocation) :=
  match DS_decls with
  | [] => ret (true, Cxx1yLoc)
  | DclIt :: rest =>
    let continue := CheckConstexprDeclStmt SemaRef Dcl DS_getBeginLoc rest in
    let invalid_stmt :=
      Diag DS_getBeginLoc err_constexpr_body_invalid_stmt
           [arg_bool (isa_CXXConstructorDecl Dcl)] ;;;
      ret (false, Cxx1yLoc) in
    match DclIt with
    | D_Leaf (StaticAssert | Using | UsingShadow | UsingDirective
              | UnresolvedUsingTypename | UnresolvedUsingValue) =>
        continue Cxx1yLoc

    | D_TypedefName _ TN =>
        if isVariablyModifiedType (getUnderlyingType TN) then
          Diag (getBegin (TypeLoc_getSourceRange TN)) err_constexpr_vla
               [arg_range (TypeLoc_getSourceRange TN);
                arg_type (TypeLoc_getType TN);
                arg_bool (isa_CXXConstructorDecl Dcl)] ;;;
          ret (false, Cxx1yLoc)
        else continue Cxx1yLoc

    | D_Tag (Enum | CXXRecord) isDefinition _ =>
        (if isDefinition then
           Diag DS_getBeginLoc
                (if CPlusPlus14 SemaRef
                 then warn_cxx11_compat_constexpr_type_definition
                 else ext_constexpr_type_definition)
                [arg_bool (isa_CXXConstructorDecl Dcl)]
         else ret tt) ;;;
        continue Cxx1yLoc

    | D_Leaf (EnumConstant | IndirectField) | D_Var ParmVar _ =>
        continue Cxx1yLoc

    | D_Var (Var | Decomposition) VD =>
        let advisory :=
          Diag (getLocation VD)
               (if CPlusPlus14 SemaRef
                then warn_cxx11_compat_constexpr_local_var
                else ext_constexpr_local_var)
               [arg_bool (isa_CXXConstructorDecl Dcl)] ;;;
          continue Cxx1yLoc in
        if isThisDeclarationADefinition VD then
          if isStaticLocal VD then
            Diag (getLocation VD) err_constexpr_local_var_static
                 [arg_bool (isa_CXXConstructorDecl Dcl);
                  arg_bool (TLSKind_eqb (getTLSKind VD) TLS_Dynamic)] ;;;
            ret (false, Cxx1yLoc)
          else
            nonliteral <-
              (if negb (isDependentType (getType VD)) then
                 RequireLiteralType (getLocation VD) (getType VD)
                   err_constexpr_local_var_non_literal_type
                   [arg_bool (isa_CXXConstructorDecl Dcl)]
               else ret false) ;;
            if nonliteral then ret (false, Cxx1yLoc)
            else if negb (isDependentType (getType VD)) && negb (hasInit VD)
                    && negb (isCXXForRangeDecl VD) then
              Diag (getLocation VD) err_constexpr_local_var_no_init
                   [arg_bool (isa_CXXConstructorDecl Dcl)] ;;;
              ret (false, Cxx1yLoc)
            else advisory
        else advisory

    | D_Leaf NamespaceAlias =>
        continue (if negb (isValid Cxx1yLoc) then DS_getBeginLoc else Cxx1yLoc)
    | D_Function FD _ =>
        match funcKind FD with
        | Function =>
            continue (if negb (isValid Cxx1yLoc) then DS_getBeginLoc
                      else Cxx1yLoc)
        | _ => invalid_stmt
        end

    | _ => invalid_stmt
    end
  end.

(** [CheckConstexprParameterTypes], lines 132-149: the loop from position
    [ArgIndex] on. *)
Fixpoint CheckConstexprParameterTypes_from (FD : FunctionDecl)
    (i : list Param) (ArgIndex : nat) : M bool :=
  match i with
  | [] => ret true
  | P :: i' =>
    let PD := getParamDecl P in
    let ParamLoc := parmLocation PD in
    failed <-
      (if negb (isDependentType (param_type P)) then
         RequireLiteralType ParamLoc (param_type P)
           err_constexpr_non_literal_param
           [arg_uint (ArgIndex + 1); arg_range (parmSourceRange PD);
            arg_bool (isa_CXXConstructorDecl FD)]
       else ret false) ;;
    if failed then ret false
    else CheckConstexprParameterTypes_from FD i' (S ArgIndex)
  end.

Definition CheckConstexprParameterTypes (FD : FunctionDecl) : M bool :=
  CheckConstexprParameterTypes_from FD (params FD) 0.

(** ** RecursiveASTVisitor

    A traversal walks the subtree of its root in pre-order and calls the
    visitor's [Visit...] hook on each node; a hook that answers false stops
    the walk. The subtree of a function declaration holds its body
    ([TraverseFunctionHelper]); that of a [DeclStmt] the declarations it
    introduces ([TraverseDeclStmt]); that of a class, namespace or
    translation unit its member declarations ([TraverseDeclContextHelper]).
    So the walk over a function reaches the member functions of a class
    defined in its body, and their bodies. Expressions are leaves of the
    tree: the statements inside an initializer (the body of a lambda) are
    not part of it. *)
Inductive Node :=
  | N_Decl (D : Decl)
  | N_Stmt (S : Stmt).

Fixpoint preorder_Decl (D : Decl) : list Node :=
  N_Decl D ::
  match D with
  | D_Tag _ _ members => flat_map preorder_Decl members
  | D_Function _ (Some Body) => preorder_Stmt Body
  | D_Context _ decls => flat_map preorder_Decl decls
  | _ => []
  end
with preorder_Stmt (S : Stmt) : list Node :=
  N_Stmt S ::
  match S with
  | DeclStmt _ decls => flat_map preorder_Decl decls
  | CompoundStmt body => flat_map preorder_Stmt body
  | OtherStmt children => flat_map preorder_Stmt children
  end.

Fixpoint Traverse (Visit : Node -> M bool) (nodes : list Node) : M bool :=
  match nodes with
  | [] => ret true
  | n :: rest =>
    ok <- Visit n ;;
    if ok then Traverse Visit rest else ret false
  end.

Definition TraverseDecl (Visit : Node -> M bool) (D : Decl) : M bool :=
  Traverse Visit (preorder_Decl D).

(** The scope of lines 187-205: a [unique_ptr] whose deleter runs when the
    block is left, by falling through or by [return]. The block answers
    whether it fell through. *)
Definition scope_exit {A} (deleter : M unit) (block : M A) : M A :=
  r <- block ;; deleter ;;; ret r.

(** The two warnings of the tool. *)
Definition function_warning (loc : SourceLocation) : Diagnostic :=
  mkDiag loc (getCustomDiagID Warning "function can be constexpr") []
         [CreateInsertion loc "constexpr "].

Definition variable_warning (loc : SourceLocation) : Diagnostic :=
  mkDiag loc (getCustomDiagID Warning "variable can be constexpr") []
         [CreateInsertion loc "constexpr "].

(** ** ConstexprFunctionASTVisitor, lines 158-221 *)
Module ConstexprFunctionASTVisitor.
Section Visitor.
Variable sourceManager_ : SourceManager.
Variable sema : Sema.

Definition VisitFunctionDecl (func : FunctionDecl) (Body : option Stmt)
    : M bool :=
  (* Only functions in our TU *)
  let loc := funcBegin func in
  if negb (isWrittenInMainFile sourceManager_ loc) then ret true else
  (* Skip existing constExpr functions *)
  already <- isConstexpr (funcID func) ;;
  if already then ret true else
  (* Don't mark main as constexpr *)
  if isMain func then ret true else
  setSuppressAllDiagnostics true ;;;
  passed <-
    scope_exit (setSuppressAllDiagnostics false)
      (ok1 <- CheckConstexprFunctionDecl sema func Body ;;
       if negb ok1 then ret false else
       ok2 <- CheckConstexprFunctionBody sema func Body ;;
       if negb ok2 then ret false else
       ok3 <- CheckConstexprParameterTypes func ;;
       if negb ok3 then ret false else
       ret true) ;;
  if negb passed then ret true else
  (* Mark function as constexpr *)
  setConstexpr (funcID func) ;;;
  (* Create diagnostic *)
  Report (function_warning loc) ;;;
  ret true.

(** The hook as the walk sees it: called on function declarations only. *)
Definition Visit (n : Node) : M bool :=
  match n with
  | N_Decl (D_Function func Body) => VisitFunctionDecl func Body
  | _ => ret true
  end.

End Visitor.
End ConstexprFunctionASTVisitor.

(** ** ConstexprVarDeclFunctionASTVisitor, lines 223-307 *)
Module ConstexprVarDeclFunctionASTVisitor.

(** [DeclStmt::isSingleDecl]: a [DeclGroupRef] is single unless it holds two
    declarations or more, so the null group counts as single. *)
Definition isSingleDecl (decls : list Decl) : bool :=
  match decls with [] | [_] => true | _ => false end.

Module ConstexprVarDeclVisitor.

Definition VisitDeclStmt (stmt_Begin : SourceLocation)
    (stmt_decls : list Decl) : M bool :=
  if negb (isSingleDecl stmt_decls) then ret true else
  match head stmt_decls with                          (* *stmt->decl_begin() *)
  | None => ret true       (* null group: line 242 has no defined outcome *)
  | Some D =>
    match dyn_cast_VarDecl D with
    | None => ret true
    | Some var =>
      already <- isConstexpr (varID var) ;;
      if already then ret true else
      let loc := stmt_Begin in
      match getInit var with
      | None => ret true
      | Some Init =>
        if negb (checkInitIsICE var) then ret true else
        if isValueDependent Init then ret true else
        if negb (evaluateValue var) then ret true else
        if negb (isInitICE var) then ret true else
        Report (variable_warning loc) ;;;
        ret true
      end
    end
  end.

(** The hook as the walk sees it: called on declaration statements only. *)
Definition Visit (n : Node) : M bool :=
  match n with
  | N_Stmt (DeclStmt BeginLoc decls) => VisitDeclStmt BeginLoc decls
  | _ => ret true
  end.

(** [vd.TraverseFunctionDecl(func)]: the walk over the whole of [func]. *)
Definition TraverseFunctionDecl (func : FunctionDecl) (Body : option Stmt)
    : M bool :=
  TraverseDecl Visit (D_Function func Body).

End ConstexprVarDeclVisitor.

Section Visitor.
Variable sourceManager_ : SourceManager.

Definition VisitFunctionDecl (func : FunctionDecl) (Body : option Stmt)
    : M bool :=
  (* Only functions in our TU *)
  let loc := funcBegin func in
  if negb (isWrittenInMainFile sourceManager_ loc) then ret true else
  (* Don't go through functions that are already constexpr *)
  already <- isConstexpr (funcID func) ;;
  if already then ret true else
  ConstexprVarDeclVisitor.TraverseFunctionDecl func Body ;;;
  ret true.

Definition Visit (n : Node) : M bool :=
  match n with
  | N_Decl (D_Function func Body) => VisitFunctionDecl func Body
  | _ => ret true
  end.

End Visitor.
End ConstexprVarDeclFunctionASTVisitor.

(** ** ConstexprEverythingASTConsumer, lines 309-324 *)
Module ConstexprEverythingASTConsumer.

Definition HandleTranslationUnit (sm : SourceManager) (sema : Sema)
    (TU : Decl) : M unit :=
  TraverseDecl (ConstexprFunctionASTVisitor.Visit sm sema) TU ;;;
  TraverseDecl (ConstexprVarDeclFunctionASTVisitor.Visit sm) TU ;;;
  ret tt.

End ConstexprEverythingASTConsumer.

(** ** Vocabulary of the statements *)

Definition suppressed (CI : CompilerInstance) : bool :=
  SuppressAllDiagnostics (Diagnostics CI).

Definition unsuppress (CI : CompilerInstance) : CompilerInstance :=
  mkCI (constexprDecls CI) (mkEngine false (reported (Diagnostics CI))).

Definition emit (D : Diagnostic) (CI : CompilerInstance) : CompilerInstance :=
  mkCI (constexprDecls CI)
       (mkEngine (suppressed CI) (reported (Diagnostics CI) ++ [D])).

Definition literal_or_dependent (P : Param) : bool :=
  isDependentType (param_type P) || isLiteralType (param_type P).

(** The three checks of lines 194-204, each evaluated in the state [CI]. *)
Definition all_checks_pass (sema : Sema) (func : FunctionDecl)
    (Body : option Stmt) (CI : CompilerInstance) : bool :=
  fst (CheckConstexprFunctionDecl sema func Body CI)
  && fst (CheckConstexprFunctionBody sema func Body CI)
  && fst (CheckConstexprParameterTypes func CI).

(** The same three verdicts, read off [Sema] and the parameter types. *)
Definition eligible (sema : Sema) (func : FunctionDecl) (Body : option Stmt)
    : bool :=
  fst (Sema_CheckConstexprFunctionDecl sema func Body)
  && fst (Sema_CheckConstexprFunctionBody sema func Body)
  && forallb literal_or_dependent (params func).

(** The function is looked at: primary file, not constexpr yet, not [main]. *)
Definition probed (sm : SourceManager) (func : FunctionDecl)
    (CI : CompilerInstance) : bool :=
  isWrittenInMainFile sm (funcBegin func)
  && negb (bool_decide (funcID func ∈ constexprDecls CI))
  && negb (isMain func).

(** Lines 208-216 on a state that has just left the probe. *)
Definition mark (func : FunctionDecl) (CI : CompilerInstance)
    : CompilerInstance :=
  mkCI ({[ funcID func ]} ∪ constexprDecls CI)
       (mkEngine false
          (reported (Diagnostics CI) ++ [function_warning (funcBegin func)])).

(** The outcome of a visit of the function pass as a function of the three
    answers alone. *)
Definition decided_by_three_answers (sm : SourceManager) (func : FunctionDecl)
    (CI : CompilerInstance) (decl_ok body_ok params_ok : bool)
    : CompilerInstance :=
  if probed sm func CI then
    if decl_ok && body_ok && params_ok then mark func CI else unsuppress CI
  else CI.

(** What the function pass does with one node, and with a whole unit. *)
Definition function_step (sm : SourceManager) (sema : Sema) (n : Node)
    (CI : CompilerInstance) : CompilerInstance :=
  snd (ConstexprFunctionASTVisitor.Visit sm sema n CI).

Definition function_pass (sm : SourceManager) (sema : Sema) (TU : Decl)
    (CI : CompilerInstance) : CompilerInstance :=
  snd (TraverseDecl (ConstexprFunctionASTVisitor.Visit sm sema) TU CI).

(** A node on which the function pass has nothing left to do. *)
Definition quiet (sm : SourceManager) (sema : Sema) (CI : CompilerInstance)
    (n : Node) : Prop :=
  match n with
  | N_Decl (D_Function func Body) =>
      probed sm func CI = false
      \/ (eligible sema func Body = false /\ suppressed CI = false)
  | _ => True
  end.

(** The conditions under which line 280 is reached for a variable. *)
Definition variable_qualifies (var : VarDecl) (CI : CompilerInstance) : bool :=
  negb (bool_decide (varID var ∈ constexprDecls CI))
  && match getInit var with
     | None => false
     | Some Init =>
         checkInitIsICE var && negb (isValueDependent Init)
         && evaluateValue var && isInitICE var
     end.

(** The conditions of the variable suggestion as the specification lists
    them (4.4, steps 1 to 4, for a variable not constexpr yet). *)
Definition listed_variable_conditions (var : VarDecl) (CI : CompilerInstance)
    : bool :=
  negb (bool_decide (varID var ∈ constexprDecls CI))
  && hasInit var && checkInitIsICE var && evaluateValue var && isInitICE var.

Definition is_variable (D : Decl) : bool :=
  match D with D_Var _ _ => true | _ => false end.

(** The error of line 142 for the parameter [P] at position [ArgIndex]
    (counted from 0): it carries the position counted from 1, the source
    range of the parameter, and the type that [RequireLiteralType] adds. *)
Definition non_literal_param_error (FD : FunctionDecl) (ArgIndex : nat)
    (P : Param) : Diagnostic :=
  mkDiag (parmLocation (getParamDecl P)) err_constexpr_non_literal_param
         [arg_uint (ArgIndex + 1);
          arg_range (parmSourceRange (getParamDecl P));
          arg_bool (isa_CXXConstructorDecl FD);
          arg_type (param_type P)] [].

(** The same parameter with another answer to [isLiteralType], when its type
    is dependent. *)
Definition answer_if_dependent (answer : bool) (P : Param) : Param :=
  if isDependentType (param_type P) then
    mkParam (mkType (spelling (param_type P)) true answer
                    (isVariablyModifiedType (param_type P)))
            (getParamDecl P)
  else P.

Definition with_params (FD : FunctionDecl) (ps : list Param) : FunctionDecl :=
  mkFunction (funcID FD) (funcKind FD) (funcBegin FD) (isMain FD) ps.

(** The error of line 83 for a static or thread-local variable. *)
Definition static_local_error (Dcl : FunctionDecl) (VD : VarDecl)
    : Diagnostic :=
  mkDiag (getLocation VD) err_constexpr_local_var_static
         [arg_bool (isa_CXXConstructorDecl Dcl);
          arg_bool (TLSKind_eqb (getTLSKind VD) TLS_Dynamic)] [].

(** Modelled from the spec: [Sema::CheckConstexprFunctionBody] is Clang's and
    its code is not part of this repository. Section 4.1 (3b) says of it that
    the function-body rules apply the Statement-Body Legality Checker to
    every direct child declaration-statement of the body: a body with a
    direct child statement that the checker rejects fails the body check. *)
Definition body_rules_apply_statement_checker (sema : Sema)
    (func : FunctionDecl) (Body : Stmt) : Prop :=
  forall stmts L decls,
    Body = CompoundStmt stmts ->
    In (DeclStmt L decls) stmts ->
    (forall Cxx1yLoc CI,
       fst (fst (CheckConstexprDeclStmt sema func L decls Cxx1yLoc CI))
       = false) ->
    fst (Sema_CheckConstexprFunctionBody sema func (Some Body)) = false.

(** ** Sample inputs

    Locations are offsets into a primary file of fewer than 1000 characters;
    declaration ids are distinct within a sample. *)

Definition in_main_below_1000 : SourceManager :=
  {| isWrittenInMainFile := fun L => (1 <=? L) && (L <? 1000) |}.

Definition int_type : QualType := mkType "int" false true false.
Definition string_type : QualType := mkType "std::string" false false false.
Definition T_type : QualType := mkType "T" true false false.

(** No declaration constexpr, diagnostics audible, nothing reported. *)
Definition fresh : CompilerInstance := mkCI ∅ (mkEngine false []).

(** A [Sema] under which both function checks pass for every function. *)
Definition permissive : Sema :=
  mkSema true (fun _ _ => (true, [])) (fun _ _ => (true, [])).

(** A [Sema] whose declaration check fails, with an error, for everything. *)
Definition strict : Sema :=
  mkSema true
    (fun func _ => (false, [mkDiag (funcBegin func) (sema_internal 1) [] []]))
    (fun _ _ => (true, [])).

(** A [Sema] whose body check is the statement checker applied to the direct
    child declaration statements of the body, and nothing more. *)
Definition direct_statements_pass (cxx14 : bool) (func : FunctionDecl)
    (Body : option Stmt) : bool :=
  match Body with
  | Some (CompoundStmt stmts) =>
      forallb
        (fun S =>
           match S with
           | DeclStmt L decls =>
               fst (fst (CheckConstexprDeclStmt
                           (mkSema cxx14 (fun _ _ => (true, []))
                                   (fun _ _ => (true, [])))
                           func L decls 0 (mkCI ∅ (mkEngine true []))))
           | _ => true
           end) stmts
  | _ => true
  end.

Definition by_the_book : Sema :=
  mkSema true (fun _ _ => (true, []))
         (fun func Body => (direct_statements_pass true func Body, [])).

(** [int x = 1;], the statement at 60. *)
Definition x_var : VarDecl :=
  mkVar 4 64 int_type true false TLS_None (Some (mkExpr false)) false
        true true true.

(** [int square(int x) { return x * x; }] at location 10. *)
Definition square : FunctionDecl :=
  mkFunction 1 Function 10 false
    [mkParam int_type (mkParm 21 (mkRange 17 21))].
Definition square_body : option Stmt := Some (CompoundStmt [OtherStmt []]).

(** [void f(std::string s) { struct S { int g() { int x = 1; return x; } }; }]:
    [f] at 10 with a parameter of non-literal type, the class at 40, its
    member function [g] at 50, [int x = 1;] at 60. *)
Definition g_fn : FunctionDecl := mkFunction 3 CXXMethod 50 false [].
Definition g_body : option Stmt :=
  Some (CompoundStmt [DeclStmt 60 [D_Var Var x_var]; OtherStmt []]).
Definition f_fn : FunctionDecl :=
  mkFunction 1 Function 10 false
    [mkParam string_type (mkParm 29 (mkRange 17 29))].
Definition f_body : option Stmt :=
  Some (CompoundStmt
          [DeclStmt 40 [D_Tag CXXRecord true [D_Function g_fn g_body]]]).
Definition nested_unit : Decl :=
  D_Context TranslationUnit [D_Function f_fn f_body].

(** [int main() { int x = 1; }]: [main] at 10, [int x = 1;] at 60. *)
Definition main_fn : FunctionDecl := mkFunction 1 Function 10 true [].
Definition main_body : option Stmt :=
  Some (CompoundStmt [DeclStmt 60 [D_Var Var x_var]]).
Definition main_unit : Decl :=
  D_Context TranslationUnit [D_Function main_fn main_body].

(** [const int n = N;] at location 70 inside a template: the initializer is
    value-dependent, every other query on it answers yes. *)
Definition n_var : VarDecl :=
  mkVar 5 80 int_type true false TLS_None (Some (mkExpr true)) false
        true true true.

(** [int a = 1, b = 2;] at location 90. *)
Definition a_var : VarDecl :=
  mkVar 6 94 int_type true false TLS_None (Some (mkExpr false)) false
        true true true.
Definition b_var : VarDecl :=
  mkVar 7 101 int_type true false TLS_None (Some (mkExpr false)) false
        true true true.

(** [void log(int x) { static int calls = 0; calls++; }]: [log] at 10, the
    declaration statement at 30. *)
Definition calls_var : VarDecl :=
  mkVar 9 41 int_type true true TLS_None (Some (mkExpr false)) false
        true true true.
Definition log_fn : FunctionDecl :=
  mkFunction 8 Function 10 false
    [mkParam int_type (mkParm 23 (mkRange 19 23))].
Definition log_stmts : list Stmt :=
  [DeclStmt 30 [D_Var Var calls_var]; OtherStmt []].

(** [template<class T> void h(T t, std::string s);] *)
Definition h_fn : FunctionDecl :=
  mkFunction 10 Function 10 false
    [mkParam T_type (mkParm 19 (mkRange 17 19));
     mkParam string_type (mkParm 34 (mkRange 22 34))].

(** ** The program without [CheckConstexprDeclStmt]

    The run as it is once the statement checker is taken out of the
    anonymous namespace: what a visit does is a function of the answers of
    the queries it asks. The function pass decides by the three answers;
    the variable pass walks every function of the primary file that is not
    constexpr and decides for each statement by the queries on its
    variable. *)
Module QueriesOnly.

Definition function_visit (sm : SourceManager) (sema : Sema) (n : Node)
    (CI : CompilerInstance) : CompilerInstance :=
  match n with
  | N_Decl (D_Function func Body) =>
      decided_by_three_answers sm func CI
        (fst (Sema_CheckConstexprFunctionDecl sema func Body))
        (fst (Sema_CheckConstexprFunctionBody sema func Body))
        (forallb literal_or_dependent (params func))
  | _ => CI
  end.

Definition statement_visit (n : Node) (CI : CompilerInstance)
    : CompilerInstance :=
  match n with
  | N_Stmt (DeclStmt L [D_Var _ var]) =>
      if variable_qualifies var CI && negb (suppressed CI)
      then emit (variable_warning L) CI else CI
  | _ => CI
  end.

Definition variable_visit (sm : SourceManager) (n : Node)
    (CI : CompilerInstance) : CompilerInstance :=
  match n with
  | N_Decl (D_Function func Body) =>
      if isWrittenInMainFile sm (funcBegin func)
         && negb (bool_decide (funcID func ∈ constexprDecls CI))
      then fold_left (fun CI0 m => statement_visit m CI0)
                     (preorder_Decl (D_Function func Body)) CI
      else CI
  | _ => CI
  end.

Definition HandleTranslationUnit (sm : SourceManager) (sema : Sema)
    (TU : Decl) (CI : CompilerInstance) : CompilerInstance :=
  fold_left (fun CI0 n => variable_visit sm n CI0) (preorder_Decl TU)
    (fold_left (fun CI0 n => function_visit sm sema n CI0)
               (preorder_Decl TU) CI).

End QueriesOnly.

(** ** Vocabulary of the further properties *)

(** The node of a function declaration, given with its body. *)
Definition function_node (fb : FunctionDecl * option Stmt) : Node :=
  N_Decl (D_Function (fst fb) (snd fb)).

(** The state [CI] with the diagnostics [news] recorded after those it
    holds. *)
Definition emit_all (news : list Diagnostic) (CI : CompilerInstance)
    : CompilerInstance :=
  mkCI (constexprDecls CI)
       (mkEngine (suppressed CI) (reported (Diagnostics CI) ++ news)).

Definition variable_pass (sm : SourceManager) (TU : Decl)
    (CI : CompilerInstance) : CompilerInstance :=
  snd (TraverseDecl (ConstexprVarDeclFunctionASTVisitor.Visit sm) TU CI).

(** The subtree that a walk started at the node [n] covers. *)
Definition preorder_Node (n : Node) : list Node :=
  match n with
  | N_Decl D => preorder_Decl D
  | N_Stmt St => preorder_Stmt St
  end.

(** The verdict of [CheckConstexprDeclStmt] on one declaration, read off the
    cases of the switch of lines 29-123. *)
Definition decl_allowed (D : Decl) : bool :=
  match D with
  | D_Leaf (StaticAssert | Using | UsingShadow | UsingDirective
            | UnresolvedUsingTypename | UnresolvedUsingValue
            | EnumConstant | IndirectField | NamespaceAlias) => true
  | D_TypedefName _ TN => negb (isVariablyModifiedType (getUnderlyingType TN))
  | D_Tag (Enum | CXXRecord) _ _ => true
  | D_Var ParmVar _ => true
  | D_Var (Var | Decomposition) VD =>
      negb (isThisDeclarationADefinition VD)
      || (negb (isStaticLocal VD)
          && (isDependentType (getType VD)
              || (isLiteralType (getType VD)
                  && (hasInit VD || isCXXForRangeDecl VD))))
  | D_Function FD _ =>
      match funcKind FD with Function => true | _ => false end
  | _ => false
  end.

(** The declarations of lines 111-117, which set [Cxx1yLoc]. *)
Definition sets_Cxx1yLoc (D : Decl) : bool :=
  match D with
  | D_Leaf NamespaceAlias => true
  | D_Function FD _ =>
      match funcKind FD with Function => true | _ => false end
  | _ => false
  end.

(** The notes that accompany a declaration the checker accepts, and the
    errors with which it gives up. *)
Definition is_advisory (D : Diagnostic) : bool :=
  match diagID D with
  | warn_cxx11_compat_constexpr_type_definition
  | ext_constexpr_type_definition
  | warn_cxx11_compat_constexpr_local_var
  | ext_constexpr_local_var => true
  | _ => false
  end.

Definition is_hard_error (D : Diagnostic) : bool :=
  match diagID D with
  | err_constexpr_vla
  | err_constexpr_local_var_static
  | err_constexpr_local_var_non_literal_type
  | err_constexpr_local_var_no_init
  | err_constexpr_body_invalid_stmt => true
  | _ => false
  end.

Definition is_function_node (n : Node) : bool :=
  match n with N_Decl (D_Function _ _) => true | _ => false end.

(** A function of the unit that the function pass may mark from [CI]. *)
Definition markable (sm : SourceManager) (sema : Sema) (TU : Decl)
    (CI : CompilerInstance) (fb : FunctionDecl * option Stmt) : Prop :=
  In (N_Decl (D_Function (fst fb) (snd fb))) (preorder_Decl TU)
  /\ isWrittenInMainFile sm (funcBegin (fst fb)) = true
  /\ isMain (fst fb) = false
  /\ eligible sema (fst fb) (snd fb) = true
  /\ funcID (fst fb) ∉ constexprDecls CI.

(** [void f() { struct S { void g() { <one variable> } }; }] with the
    declaration statement of the class at [LS] and that of the variable at
    [L]. *)
Definition nested_in (K0 : ContextKind) (f g : FunctionDecl)
    (LS L : SourceLocation) (TK : TagKind) (K : VarKind) (var : VarDecl)
    : Decl :=
  D_Context K0
    [D_Function f
       (Some (CompoundStmt
          [DeclStmt LS
             [D_Tag TK true
                [D_Function g
                   (Some (CompoundStmt [DeclStmt L [D_Var K var]]))]]]))].

(** Samples: a typedef of a variably-modified type, a declaration statement
    that mixes kinds, a function of another file. *)
Definition vla_typedef : TypedefNameDecl :=
  mkTypedef (mkType "int[n]" false false true) (mkRange 38 43)
            (mkType "int[n]" false false true).
Definition local_prototype : FunctionDecl :=
  mkFunction 12 Function 50 false [].
Definition header_fn : FunctionDecl :=
  mkFunction 13 Function 2000 false [].
Definition header_unit : Decl :=
  D_Context TranslationUnit [D_Function header_fn main_body].
Definition inner_fn : FunctionDecl := mkFunction 14 CXXMethod 50 false [].
Definition outer_fn : FunctionDecl := mkFunction 15 Function 10 false [].

(** Induction over the syntax tree, with the hypothesis available for every
    member of a list of children. *)
Section TreeInduction.
Variable P : Decl -> Prop.
Variable Q : Stmt -> Prop.
Hypothesis P_Leaf : forall K, P (D_Leaf K).
Hypothesis P_TypedefName : forall alias TN, P (D_TypedefName alias TN).
Hypothesis P_Tag :
  forall K isDefinition members,
    Forall P members -> P (D_Tag K isDefinition members).
Hypothesis P_Var : forall K VD, P (D_Var K VD).
Hypothesis P_Prototype : forall FD, P (D_Function FD None).
Hypothesis P_Definition :
  forall FD Body, Q Body -> P (D_Function FD (Some Body)).
Hypothesis P_Context :
  forall K decls, Forall P decls -> P (D_Context K decls).
Hypothesis Q_DeclStmt :
  forall BeginLoc decls, Forall P decls -> Q (DeclStmt BeginLoc decls).
Hypothesis Q_CompoundStmt :
  forall body, Forall Q body -> Q (CompoundStmt body).
Hypothesis Q_OtherStmt :
  forall children, Forall Q children -> Q (OtherStmt children).

Fixpoint Decl_tree_ind (D : Decl) : P D :=
  let all_decls :=
    fix all (l : list Decl) : Forall P l :=
      match l with
      | [] => @List.Forall_nil Decl P
      | D' :: l' => @List.Forall_cons Decl P D' l' (Decl_tree_ind D') (all l')
      end in
  match D with
  | D_Leaf K => P_Leaf K
  | D_TypedefName alias TN => P_TypedefName alias TN
  | D_Tag K isDefinition members =>
      P_Tag K isDefinition members (all_decls members)
  | D_Var K VD => P_Var K VD
  | D_Function FD None => P_Prototype FD
  | D_Function FD (Some Body) => P_Definition FD Body (Stmt_tree_ind Body)
  | D_Context K decls => P_Context K decls (all_decls decls)
  end
with Stmt_tree_ind (St : Stmt) : Q St :=
  let all_decls :=
    fix all (l : list Decl) : Forall P l :=
      match l with
      | [] => @List.Forall_nil Decl P
      | D' :: l' => @List.Forall_cons Decl P D' l' (Decl_tree_ind D') (all l')
      end in
  let all_stmts :=
    fix all (l : list Stmt) : Forall Q l :=
      match l with
      | [] => @List.Forall_nil Stmt Q
      | S' :: l' => @List.Forall_cons Stmt Q S' l' (Stmt_tree_ind S') (all l')
      end in
  match St with
  | DeclStmt BeginLoc decls => Q_DeclStmt BeginLoc decls (all_decls decls)
  | CompoundStmt body => Q_CompoundStmt body (all_stmts body)
  | OtherStmt children => Q_OtherStmt children (all_stmts children)
  end.
End TreeInduction.

(** * Properties *)

Import ConstexprFunctionASTVisitor.

(** ** The diagnostics engine *)

Lemma CI_eta CI :
  mkCI (constexprDecls CI)
       (mkEngine (suppressed CI) (reported (Diagnostics CI))) = CI.
Proof. destruct CI as [c [s r]]; reflexivity. Qed.

Lemma unsuppress_id CI : suppressed CI = false -> unsuppress CI = CI.
Proof. intros H. rewrite <- (CI_eta CI) at 2. rewrite H. reflexivity. Qed.

Lemma Report_suppressed D CI : suppressed CI = true -> Report D CI = (tt, CI).
Proof. unfold Report, suppressed. intros ->. reflexivity. Qed.

Lemma ReportAll_suppressed Ds CI :
  suppressed CI = true -> ReportAll Ds CI = (tt, CI).
Proof.
  intros H. induction Ds as [|D Ds IH]; simpl; [reflexivity|].
  unfold bind. rewrite Report_suppressed by assumption. exact IH.
Qed.

Lemma Report_audible D CI :
  suppressed CI = false ->
  Report D CI =
  (tt, mkCI (constexprDecls CI)
            (mkEngine false (reported (Diagnostics CI) ++ [D]))).
Proof. unfold Report, suppressed. intros ->. reflexivity. Qed.

(** ** Verdicts of the three checks *)

Lemma RequireLiteralType_suppressed Loc T ID Args CI :
  suppressed CI = true ->
  RequireLiteralType Loc T ID Args CI = (negb (isLiteralType T), CI).
Proof.
  intros H. unfold RequireLiteralType, Diag.
  destruct (isLiteralType T); [reflexivity|].
  unfold bind. rewrite Report_suppressed by assumption. reflexivity.
Qed.

Lemma CheckConstexprParameterTypes_from_suppressed FD ps n CI :
  suppressed CI = true ->
  CheckConstexprParameterTypes_from FD ps n CI =
  (forallb literal_or_dependent ps, CI).
Proof.
  intros H. revert n. induction ps as [|P ps IH]; intros n; simpl.
  - reflexivity.
  - unfold bind, literal_or_dependent at 1.
    destruct (isDependentType (param_type P)); simpl.
    + apply IH.
    + rewrite RequireLiteralType_suppressed by assumption.
      destruct (isLiteralType (param_type P)); simpl; [apply IH | reflexivity].
Qed.

Lemma CheckConstexprFunctionDecl_suppressed S func Body CI :
  suppressed CI = true ->
  CheckConstexprFunctionDecl S func Body CI =
  (fst (Sema_CheckConstexprFunctionDecl S func Body), CI).
Proof.
  intros H. unfold CheckConstexprFunctionDecl.
  destruct (Sema_CheckConstexprFunctionDecl S func Body) as [ok Ds].
  unfold bind. rewrite ReportAll_suppressed by assumption. reflexivity.
Qed.

Lemma CheckConstexprFunctionBody_suppressed S func Body CI :
  suppressed CI = true ->
  CheckConstexprFunctionBody S func Body CI =
  (fst (Sema_CheckConstexprFunctionBody S func Body), CI).
Proof.
  intros H. unfold CheckConstexprFunctionBody.
  destruct (Sema_CheckConstexprFunctionBody S func Body) as [ok Ds].
  unfold bind. rewrite ReportAll_suppressed by assumption. reflexivity.
Qed.

(** The verdict of a check does not depend on the state it runs in. *)
Lemma fst_ReportAll_bind {A} Ds (a : A) CI :
  fst ((ReportAll Ds ;;; ret a) CI) = a.
Proof.
  unfold bind. destruct (ReportAll Ds CI). reflexivity.
Qed.

Lemma CheckConstexprFunctionDecl_verdict S func Body CI :
  fst (CheckConstexprFunctionDecl S func Body CI) =
  fst (Sema_CheckConstexprFunctionDecl S func Body).
Proof.
  unfold CheckConstexprFunctionDecl.
  destruct (Sema_CheckConstexprFunctionDecl S func Body) as [ok Ds].
  apply fst_ReportAll_bind.
Qed.

Lemma CheckConstexprFunctionBody_verdict S func Body CI :
  fst (CheckConstexprFunctionBody S func Body CI) =
  fst (Sema_CheckConstexprFunctionBody S func Body).
Proof.
  unfold CheckConstexprFunctionBody.
  destruct (Sema_CheckConstexprFunctionBody S func Body) as [ok Ds].
  apply fst_ReportAll_bind.
Qed.

Lemma RequireLiteralType_verdict Loc T ID Args CI :
  fst (RequireLiteralType Loc T ID Args CI) = negb (isLiteralType T).
Proof.
  unfold RequireLiteralType, Diag, bind.
  destruct (isLiteralType T); [reflexivity|].
  destruct (Report _ CI). reflexivity.
Qed.

Lemma CheckConstexprParameterTypes_from_verdict FD ps n CI :
  fst (CheckConstexprParameterTypes_from FD ps n CI) =
  forallb literal_or_dependent ps.
Proof.
  revert n CI. induction ps as [|P ps IH]; intros n CI; simpl; [reflexivity|].
  unfold bind, literal_or_dependent at 1.
  destruct (isDependentType (param_type P)); simpl; [apply IH|].
  pose proof (RequireLiteralType_verdict (parmLocation (getParamDecl P))
    (param_type P) err_constexpr_non_literal_param
    [arg_uint (n + 1); arg_range (parmSourceRange (getParamDecl P));
     arg_bool (isa_CXXConstructorDecl FD)] CI) as Hv.
  destruct (RequireLiteralType _ _ _ _ CI) as [failed CI1].
  simpl in Hv. subst failed.
  destruct (isLiteralType (param_type P)); simpl; [apply IH | reflexivity].
Qed.

Lemma all_checks_pass_eligible sema func Body CI :
  all_checks_pass sema func Body CI = eligible sema func Body.
Proof.
  unfold all_checks_pass, eligible, CheckConstexprParameterTypes.
  rewrite CheckConstexprFunctionDecl_verdict.
  rewrite CheckConstexprFunctionBody_verdict.
  rewrite CheckConstexprParameterTypes_from_verdict.
  reflexivity.
Qed.

(** What one visit of the function pass does, in closed form. *)
Lemma VisitFunctionDecl_closed_form sm sema func Body CI :
  VisitFunctionDecl sm sema func Body CI =
  (true,
   if probed sm func CI then
     if eligible sema func Body then mark func CI else unsuppress CI
   else CI).
Proof.
  unfold VisitFunctionDecl, probed.
  destruct (isWrittenInMainFile sm (funcBegin func)); simpl; [|reflexivity].
  unfold bind at 1. unfold isConstexpr at 1.
  destruct (bool_decide (funcID func ∈ constexprDecls CI)); simpl; [reflexivity|].
  destruct (isMain func); simpl; [reflexivity|].
  unfold scope_exit, eligible, CheckConstexprParameterTypes.
  unfold bind at 1. simpl.
  set (CI1 := mkCI (constexprDecls CI)
                   (mkEngine true (reported (Diagnostics CI)))).
  assert (Hs : suppressed CI1 = true) by reflexivity.
  unfold bind at 1. unfold bind at 1. unfold bind at 1.
  rewrite CheckConstexprFunctionDecl_suppressed by assumption.
  destruct (fst (Sema_CheckConstexprFunctionDecl sema func Body)); simpl;
    [|reflexivity].
  unfold bind at 1.
  rewrite CheckConstexprFunctionBody_suppressed by assumption.
  destruct (fst (Sema_CheckConstexprFunctionBody sema func Body)); simpl;
    [|reflexivity].
  unfold bind at 1.
  rewrite CheckConstexprParameterTypes_from_suppressed by assumption.
  destruct (forallb literal_or_dependent (params func)); simpl; reflexivity.
Qed.

Lemma probed_true sm func CI :
  isWrittenInMainFile sm (funcBegin func) = true ->
  funcID func ∉ constexprDecls CI ->
  isMain func = false ->
  probed sm func CI = true.
Proof.
  intros Hfile Hflag Hmain. unfold probed.
  rewrite Hfile, Hmain, (bool_decide_eq_false_2 _ Hflag). reflexivity.
Qed.

(** ** The Function Eligibility Visitor on one function *)

(** C1. A function of the primary file that is neither constexpr nor [main]:
    when the three checks pass, its constexpr bit is set (and no other) and
    exactly one diagnostic is added, the Warning "function can be constexpr"
    at the start of the function with a fix-it that inserts "constexpr "
    there; when one of them fails, no constexpr bit changes and no
    diagnostic is added. *)
Theorem C1_function_visit sm sema func Body CI :
  isWrittenInMainFile sm (funcBegin func) = true ->
  funcID func ∉ constexprDecls CI ->
  isMain func = false ->
  let CI' := snd (VisitFunctionDecl sm sema func Body CI) in
  (all_checks_pass sema func Body CI = true ->
     funcID func ∈ constexprDecls CI'
     /\ constexprDecls CI' = {[ funcID func ]} ∪ constexprDecls CI
     /\ reported (Diagnostics CI') =
        reported (Diagnostics CI) ++
          [mkDiag (funcBegin func)
                  (getCustomDiagID Warning "function can be constexpr") []
                  [CreateInsertion (funcBegin func) "constexpr "]])
  /\ (all_checks_pass sema func Body CI = false ->
     constexprDecls CI' = constexprDecls CI
     /\ reported (Diagnostics CI') = reported (Diagnostics CI)).
Proof.
  intros Hfile Hflag Hmain CI'. subst CI'.
  rewrite VisitFunctionDecl_closed_form, all_checks_pass_eligible.
  rewrite (probed_true _ _ _ Hfile Hflag Hmain). simpl.
  split; intros ->; simpl.
  - split; [set_solver | split; reflexivity].
  - split; reflexivity.
Qed.

Lemma C1_function_visit_witness :
  funcID square ∈
    constexprDecls
      (snd (VisitFunctionDecl in_main_below_1000 permissive square square_body
              fresh))
  /\ (all_checks_pass strict square square_body fresh = false
      /\ reported (Diagnostics
           (snd (VisitFunctionDecl in_main_below_1000 strict square
                   square_body fresh))) = []).
Proof.
  split.
  - apply (C1_function_visit in_main_below_1000 permissive square square_body
             fresh eq_refl (not_elem_of_empty _) eq_refl).
    reflexivity.
  - split; [reflexivity|].
    apply (C1_function_visit in_main_below_1000 strict square square_body
             fresh eq_refl (not_elem_of_empty _) eq_refl).
    reflexivity.
Defined.

(** C5. Whatever the outcome of the probe (the declaration check, the body
    check or the parameter check fails, or all three pass), suppression is
    off when the visit of a probed function returns; and when the probe
    succeeds the warning, reported after the scope is left, is recorded even
    if suppression was on before the visit. *)
Theorem C5_suppression_lifted sm sema func Body CI :
  isWrittenInMainFile sm (funcBegin func) = true ->
  funcID func ∉ constexprDecls CI ->
  isMain func = false ->
  let CI' := snd (VisitFunctionDecl sm sema func Body CI) in
  SuppressAllDiagnostics (Diagnostics CI') = false
  /\ (all_checks_pass sema func Body CI = true ->
      In (function_warning (funcBegin func)) (reported (Diagnostics CI'))).
Proof.
  intros Hfile Hflag Hmain CI'. subst CI'.
  rewrite VisitFunctionDecl_closed_form, all_checks_pass_eligible.
  rewrite (probed_true _ _ _ Hfile Hflag Hmain). simpl.
  destruct (eligible sema func Body); simpl.
  - split; [reflexivity|]. intros _. apply in_or_app. right. left. reflexivity.
  - split; [reflexivity | discriminate].
Qed.

Lemma C5_suppression_lifted_witness :
  SuppressAllDiagnostics
    (Diagnostics
       (snd (VisitFunctionDecl in_main_below_1000 strict square square_body
               (mkCI ∅ (mkEngine true []))))) = false.
Proof.
  apply (C5_suppression_lifted in_main_below_1000 strict square square_body
           (mkCI ∅ (mkEngine true [])) eq_refl (not_elem_of_empty _) eq_refl).
Defined.

(** ** The Variable Eligibility Visitor on one declaration statement *)

Import ConstexprVarDeclFunctionASTVisitor.
Import ConstexprVarDeclVisitor.

Lemma VisitDeclStmt_single loc K var CI :
  VisitDeclStmt loc [D_Var K var] CI =
  (true,
   if variable_qualifies var CI
   then snd (Report (variable_warning loc) CI) else CI).
Proof.
  unfold VisitDeclStmt, variable_qualifies. simpl.
  unfold bind, isConstexpr.
  destruct (bool_decide (varID var ∈ constexprDecls CI)); simpl; [reflexivity|].
  destruct (getInit var) as [Init|]; [|reflexivity].
  destruct (checkInitIsICE var); simpl; [|reflexivity].
  destruct (isValueDependent Init); simpl; [reflexivity|].
  destruct (evaluateValue var); simpl; [|reflexivity].
  destruct (isInitICE var); simpl; [|reflexivity].
  destruct (Report (variable_warning loc) CI) as [[] CI1]. reflexivity.
Qed.

Lemma VisitDeclStmt_continues loc decls CI :
  fst (VisitDeclStmt loc decls CI) = true.
Proof.
  unfold VisitDeclStmt.
  destruct (isSingleDecl decls); simpl; [|reflexivity].
  destruct (head decls) as [D|]; [|reflexivity].
  destruct (dyn_cast_VarDecl D) as [var|]; [|reflexivity].
  unfold bind, isConstexpr.
  destruct (bool_decide _); [reflexivity|].
  destruct (getInit var) as [Init|]; [|reflexivity].
  destruct (negb (checkInitIsICE var)); [reflexivity|].
  destruct (isValueDependent Init); [reflexivity|].
  destruct (negb (evaluateValue var)); [reflexivity|].
  destruct (negb (isInitICE var)); [reflexivity|].
  destruct (Report _ CI). reflexivity.
Qed.

(** The visit writes no constexpr bit, and never turns suppression on. *)
Lemma VisitDeclStmt_frame loc decls CI :
  constexprDecls (snd (VisitDeclStmt loc decls CI)) = constexprDecls CI
  /\ suppressed (snd (VisitDeclStmt loc decls CI)) = suppressed CI.
Proof.
  unfold VisitDeclStmt.
  destruct (isSingleDecl decls); simpl; [|split; reflexivity].
  destruct (head decls) as [D|]; [|split; reflexivity].
  destruct (dyn_cast_VarDecl D) as [var|]; [|split; reflexivity].
  unfold bind, isConstexpr.
  destruct (bool_decide _); [split; reflexivity|].
  destruct (getInit var) as [Init|]; [|split; reflexivity].
  destruct (negb (checkInitIsICE var)); [split; reflexivity|].
  destruct (isValueDependent Init); [split; reflexivity|].
  destruct (negb (evaluateValue var)); [split; reflexivity|].
  destruct (negb (isInitICE var)); [split; reflexivity|].
  unfold Report, suppressed.
  destruct (SuppressAllDiagnostics (Diagnostics CI)) eqn:E; simpl;
    rewrite ?E; split; reflexivity.
Qed.

Lemma app_singleton_neq {A} (l : list A) (x : A) : l <> l ++ [x].
Proof.
  intros H. apply (f_equal (@List.length A)) in H.
  rewrite List.length_app in H. simpl in H. lia.
Qed.

(** C3, amended. A statement that declares the single variable [var], visited
    while diagnostics are audible: the Warning "variable can be constexpr"
    with the fix-it inserting "constexpr " at the start of the statement is
    added exactly when [var] is not constexpr, has an initializer, the
    initializer passes the ICE pre-check, is not value-dependent, evaluates
    to a constant and is an ICE; otherwise nothing is added. Without an
    initializer nothing is added, and no constexpr bit is written in either
    case. *)
Theorem C3_variable_visit loc K var CI :
  SuppressAllDiagnostics (Diagnostics CI) = false ->
  let CI' := snd (VisitDeclStmt loc [D_Var K var] CI) in
  let warning :=
    mkDiag loc (getCustomDiagID Warning "variable can be constexpr") []
           [CreateInsertion loc "constexpr "] in
  (reported (Diagnostics CI') = reported (Diagnostics CI) ++ [warning]
   <-> (varID var ∉ constexprDecls CI)
       /\ exists Init,
            getInit var = Some Init
            /\ checkInitIsICE var = true
            /\ isValueDependent Init = false
            /\ evaluateValue var = true
            /\ isInitICE var = true)
  /\ (reported (Diagnostics CI') = reported (Diagnostics CI) ++ [warning]
      \/ reported (Diagnostics CI') = reported (Diagnostics CI))
  /\ (getInit var = None ->
      reported (Diagnostics CI') = reported (Diagnostics CI))
  /\ constexprDecls CI' = constexprDecls CI.
Proof.
  intros Haud CI' warning. subst CI'.
  pose proof (VisitDeclStmt_frame loc [D_Var K var] CI) as [Hbits _].
  rewrite VisitDeclStmt_single in *.
  change (mkDiag loc _ _ _) with (variable_warning loc) in warning.
  rewrite (Report_audible _ _ Haud) in *. simpl in *.
  assert (Hq : variable_qualifies var CI = true <->
               (varID var ∉ constexprDecls CI)
               /\ exists Init, getInit var = Some Init
                    /\ checkInitIsICE var = true
                    /\ isValueDependent Init = false
                    /\ evaluateValue var = true
                    /\ isInitICE var = true).
  { unfold variable_qualifies. split.
    - intros H. apply andb_prop in H as [H1 H2].
      apply negb_true_iff, bool_decide_eq_false in H1.
      destruct (getInit var) as [Init|]; [|discriminate].
      split; [assumption|]. exists Init.
      destruct (checkInitIsICE var), (isValueDependent Init),
        (evaluateValue var), (isInitICE var); try discriminate.
      repeat split; reflexivity.
    - intros [H1 (Init & -> & -> & -> & -> & ->)].
      rewrite (bool_decide_eq_false_2 _ H1). reflexivity. }
  destruct (variable_qualifies var CI) eqn:Q; simpl.
  - split; [|split; [|split]].
    + split; [intros _; apply Hq; reflexivity | reflexivity].
    + left. reflexivity.
    + intros Hnone. destruct Hq as [Hq _].
      destruct (Hq eq_refl) as [_ (Init & Hsome & _)]. congruence.
    + assumption.
  - split; [|split; [|split]].
    + split.
      * intros H. exfalso. exact (app_singleton_neq _ _ H).
      * intros H. apply Hq in H. discriminate.
    + right. reflexivity.
    + reflexivity.
    + assumption.
Qed.

Lemma C3_variable_visit_witness :
  reported (Diagnostics (snd (VisitDeclStmt 60 [D_Var Var x_var] fresh))) =
  [mkDiag 60 (getCustomDiagID Warning "variable can be constexpr") []
          [CreateInsertion 60 "constexpr "]].
Proof.
  apply (C3_variable_visit 60 Var x_var fresh eq_refl).
  split; [apply not_elem_of_empty|].
  exists (mkExpr false). repeat split; reflexivity.
Defined.

(** C3 as the specification states it, without the value-dependence guard of
    line 263, fails: [n_var] meets every listed condition and gets no
    warning. *)
Lemma C3_listed_conditions_insufficient :
  ~ (forall loc K var CI,
       SuppressAllDiagnostics (Diagnostics CI) = false ->
       (reported (Diagnostics (snd (VisitDeclStmt loc [D_Var K var] CI))) =
        reported (Diagnostics CI) ++ [variable_warning loc]
        <-> listed_variable_conditions var CI = true)).
Proof.
  intros H.
  destruct (H 70 Var n_var fresh eq_refl) as [_ Hemit].
  specialize (Hemit eq_refl). vm_compute in Hemit. discriminate.
Qed.

(** C8. A declaration statement with two or more declarators is left alone:
    its visit changes nothing, whatever the variables it declares would
    qualify for on their own, and neither does the walk over the statement
    and the variables under it. *)
Theorem C8_multi_declarator_skipped loc decls CI :
  2 <= List.length decls ->
  VisitDeclStmt loc decls CI = (true, CI)
  /\ (forallb is_variable decls = true ->
      Traverse ConstexprVarDeclVisitor.Visit
               (preorder_Stmt (DeclStmt loc decls)) CI = (true, CI)).
Proof.
  intros Hlen.
  assert (Hvisit : VisitDeclStmt loc decls CI = (true, CI)).
  { unfold VisitDeclStmt.
    destruct decls as [|D1 [|D2 rest]]; simpl in *; try lia. reflexivity. }
  split; [exact Hvisit|].
  intros Hvars. simpl. unfold bind at 1. rewrite Hvisit.
  clear Hlen Hvisit. induction decls as [|D rest IH]; simpl; [reflexivity|].
  simpl in Hvars. apply andb_prop in Hvars as [HD Hrest].
  destruct D; try discriminate. simpl. unfold bind at 1. simpl.
  apply IH. exact Hrest.
Qed.

Lemma C8_multi_declarator_skipped_witness :
  (variable_qualifies a_var fresh = true
   /\ variable_qualifies b_var fresh = true)
  /\ VisitDeclStmt 90 [D_Var Var a_var; D_Var Var b_var] fresh = (true, fresh).
Proof.
  split; [split; reflexivity|].
  assert (Hlen : 2 <= List.length [D_Var Var a_var; D_Var Var b_var])
    by (simpl; lia).
  exact (proj1 (C8_multi_declarator_skipped 90
                  [D_Var Var a_var; D_Var Var b_var] fresh Hlen)).
Defined.

(** ** The walk over a list of nodes *)

Lemma Traverse_fold Visit nodes CI :
  (forall n CI0, fst (Visit n CI0) = true) ->
  Traverse Visit nodes CI =
  (true, fold_left (fun CI0 n => snd (Visit n CI0)) nodes CI).
Proof.
  intros Hcont. revert CI. induction nodes as [|n rest IH]; intros CI; simpl.
  - reflexivity.
  - unfold bind. specialize (Hcont n CI).
    destruct (Visit n CI) as [ok CI1]. simpl in *. subst ok. apply IH.
Qed.

Lemma function_Visit_continues sm sema n CI :
  fst (ConstexprFunctionASTVisitor.Visit sm sema n CI) = true.
Proof.
  destruct n as [[]|]; simpl; try reflexivity.
  rewrite VisitFunctionDecl_closed_form. reflexivity.
Qed.

Lemma function_pass_fold sm sema TU CI :
  function_pass sm sema TU CI =
  fold_left (fun CI0 n => function_step sm sema n CI0) (preorder_Decl TU) CI.
Proof.
  unfold function_pass, TraverseDecl.
  rewrite Traverse_fold by apply function_Visit_continues. reflexivity.
Qed.

(** ** Idempotence of the function pass *)

Lemma function_step_grows sm sema n CI :
  constexprDecls CI ⊆ constexprDecls (function_step sm sema n CI).
Proof.
  unfold function_step. destruct n as [[]|]; simpl; try reflexivity.
  rewrite VisitFunctionDecl_closed_form. simpl.
  destruct (probed sm FD CI); [|reflexivity].
  destruct (eligible sema FD Body); simpl; [set_solver | reflexivity].
Qed.

Lemma function_step_stays_audible sm sema n CI :
  suppressed CI = false -> suppressed (function_step sm sema n CI) = false.
Proof.
  intros H. unfold function_step. destruct n as [[]|]; simpl; try assumption.
  rewrite VisitFunctionDecl_closed_form. simpl.
  destruct (probed sm FD CI); [|assumption].
  destruct (eligible sema FD Body); reflexivity.
Qed.

Lemma probed_false_mono sm func CI CI' :
  constexprDecls CI ⊆ constexprDecls CI' ->
  probed sm func CI = false -> probed sm func CI' = false.
Proof.
  unfold probed. intros Hsub H.
  destruct (isWrittenInMainFile sm (funcBegin func)); [|reflexivity].
  destruct (isMain func); [apply andb_false_r|].
  simpl in *. rewrite andb_true_r in *.
  apply negb_false_iff in H. apply bool_decide_eq_true in H.
  apply negb_false_iff, bool_decide_eq_true. set_solver.
Qed.

Lemma quiet_noop sm sema CI n :
  quiet sm sema CI n -> function_step sm sema n CI = CI.
Proof.
  unfold function_step. destruct n as [[]|]; simpl; try reflexivity.
  rewrite VisitFunctionDecl_closed_form. simpl.
  intros [-> | [-> Haud]]; [reflexivity|].
  destruct (probed sm FD CI); [apply unsuppress_id; assumption | reflexivity].
Qed.

Lemma step_makes_quiet sm sema CI n :
  quiet sm sema (function_step sm sema n CI) n.
Proof.
  unfold function_step. destruct n as [[]|]; simpl; try exact I.
  rewrite VisitFunctionDecl_closed_form. simpl.
  destruct (probed sm FD CI) eqn:Hp.
  - destruct (eligible sema FD Body) eqn:He.
    + left. unfold probed, mark. simpl.
      rewrite (bool_decide_eq_true_2 (funcID FD ∈ {[funcID FD]} ∪ constexprDecls CI))
        by set_solver.
      simpl. rewrite andb_false_r. reflexivity.
    + right. split; reflexivity.
  - left. assumption.
Qed.

Lemma step_keeps_quiet sm sema CI n m :
  quiet sm sema CI m -> quiet sm sema (function_step sm sema n CI) m.
Proof.
  destruct m as [[]|]; simpl; try (intros; exact I).
  intros [Hp | [He Haud]].
  - left. eapply probed_false_mono; [apply function_step_grows | exact Hp].
  - right. split; [exact He | apply function_step_stays_audible; exact Haud].
Qed.

Lemma pass_leaves_quiet sm sema nodes : forall done CI,
  Forall (quiet sm sema CI) done ->
  Forall (quiet sm sema
            (fold_left (fun CI0 n => function_step sm sema n CI0) nodes CI))
         (done ++ nodes).
Proof.
  induction nodes as [|n rest IH]; intros done CI Hdone; simpl.
  - rewrite app_nil_r. exact Hdone.
  - change (done ++ n :: rest) with (done ++ [n] ++ rest).
    rewrite app_assoc. apply IH.
    apply Forall_app. split.
    + eapply List.Forall_impl; [|exact Hdone].
      intros m Hm. apply step_keeps_quiet. exact Hm.
    + constructor; [apply step_makes_quiet | constructor].
Qed.

Lemma quiet_pass_noop sm sema nodes CI :
  Forall (quiet sm sema CI) nodes ->
  fold_left (fun CI0 n => function_step sm sema n CI0) nodes CI = CI.
Proof.
  induction nodes as [|n rest IH]; intros H; simpl; [reflexivity|].
  inversion H as [|? ? Hn Hrest]; subst.
  rewrite (quiet_noop _ _ _ _ Hn). apply IH. exact Hrest.
Qed.

(** A run that starts with diagnostics audible reaches the variable pass with
    diagnostics audible. *)
Lemma function_pass_stays_audible sm sema TU CI :
  suppressed CI = false -> suppressed (function_pass sm sema TU CI) = false.
Proof.
  rewrite function_pass_fold. generalize (preorder_Decl TU) as nodes.
  intros nodes. revert CI. induction nodes as [|n rest IH]; intros CI H; simpl.
  - exact H.
  - apply IH. apply function_step_stays_audible. exact H.
Qed.

(** C7. Running the function pass again over the unit it has just been run
    over changes nothing: the state after the second run is the state after
    the first, so no diagnostic is added and no constexpr bit is written. *)
Theorem C7_function_pass_idempotent sm sema TU CI :
  let once := function_pass sm sema TU CI in
  let twice := function_pass sm sema TU once in
  twice = once
  /\ reported (Diagnostics twice) = reported (Diagnostics once)
  /\ constexprDecls twice = constexprDecls once.
Proof.
  intros once twice.
  assert (H : twice = once).
  { subst once twice. rewrite !function_pass_fold.
    apply quiet_pass_noop.
    apply (pass_leaves_quiet sm sema (preorder_Decl TU) [] CI). constructor. }
  rewrite H. repeat split.
Qed.

(** ** The two passes together *)

Import ConstexprEverythingASTConsumer.

(** At the top of a function already constexpr the variable pass turns back. *)
Lemma variable_pass_skips_constexpr_function sm func Body CI :
  funcID func ∈ constexprDecls CI ->
  ConstexprVarDeclFunctionASTVisitor.VisitFunctionDecl sm func Body CI
  = (true, CI).
Proof.
  intros Hflag. unfold ConstexprVarDeclFunctionASTVisitor.VisitFunctionDecl.
  destruct (isWrittenInMainFile sm (funcBegin func)); simpl; [|reflexivity].
  unfold bind, isConstexpr. rewrite (bool_decide_eq_true_2 _ Hflag).
  reflexivity.
Qed.

(** C2, at [nested_unit]. The function pass marks the member function [g]
    (declaration 3, at 50) constexpr and leaves the enclosing [f] unmarked;
    the variable pass then walks the whole of [f], the body of [g] included,
    and reports "variable can be constexpr" at 60 for the local [x] of
    [g]. *)
Theorem C2_nested_function_locals_diagnosed :
  let CI1 := function_pass in_main_below_1000 permissive nested_unit fresh in
  let CI2 :=
    snd (HandleTranslationUnit in_main_below_1000 permissive nested_unit fresh)
  in
  (funcID g_fn ∉ constexprDecls fresh)
  /\ funcID g_fn ∈ constexprDecls CI1
  /\ (funcID f_fn ∉ constexprDecls CI1)
  /\ reported (Diagnostics CI1) = [function_warning 50]
  /\ reported (Diagnostics CI2) = [function_warning 50; variable_warning 60].
Proof.
  intros CI1 CI2. subst CI1 CI2.
  split; [apply not_elem_of_empty|].
  split; [refine (bool_decide_eq_true_1 _ _); vm_compute; reflexivity|].
  split; [refine (bool_decide_eq_false_1 _ _); vm_compute; reflexivity|].
  split; vm_compute; reflexivity.
Qed.

(** C10. A unit whose entry-point function, in the primary file and not
    constexpr, has for body the single statement declaring [var]: when [var]
    passes the variable checks the run reports "variable can be constexpr"
    with its fix-it at that statement, and nothing else, while the function
    pass leaves the entry point unmarked. *)
Theorem C10_entry_point_locals_diagnosed sm sema func L K var CI :
  isMain func = true ->
  isWrittenInMainFile sm (funcBegin func) = true ->
  funcID func ∉ constexprDecls CI ->
  SuppressAllDiagnostics (Diagnostics CI) = false ->
  variable_qualifies var CI = true ->
  let Body := Some (CompoundStmt [DeclStmt L [D_Var K var]]) in
  let TU := D_Context TranslationUnit [D_Function func Body] in
  function_pass sm sema TU CI = CI
  /\ reported (Diagnostics (snd (HandleTranslationUnit sm sema TU CI))) =
     reported (Diagnostics CI) ++
       [mkDiag L (getCustomDiagID Warning "variable can be constexpr") []
               [CreateInsertion L "constexpr "]]
  /\ constexprDecls (snd (HandleTranslationUnit sm sema TU CI))
     = constexprDecls CI.
Proof.
  intros Hmain Hfile Hflag Haud Hq Body TU.
  assert (Hnp : probed sm func CI = false).
  { unfold probed. rewrite Hmain. apply andb_false_r. }
  assert (Hfn : TraverseDecl (ConstexprFunctionASTVisitor.Visit sm sema) TU CI
                = (true, CI)).
  { unfold TraverseDecl. subst TU Body. simpl.
    unfold bind at 1. simpl.
    unfold bind at 1. rewrite VisitFunctionDecl_closed_form, Hnp.
    reflexivity. }
  split; [unfold function_pass; rewrite Hfn; reflexivity|].
  assert (Hvar : TraverseDecl (ConstexprVarDeclFunctionASTVisitor.Visit sm) TU CI
                 = (true, snd (Report (variable_warning L) CI))).
  { unfold TraverseDecl. subst TU Body. simpl.
    unfold bind at 1. simpl.
    unfold bind at 1.
    unfold ConstexprVarDeclFunctionASTVisitor.VisitFunctionDecl.
    rewrite Hfile. simpl.
    unfold bind at 1. unfold isConstexpr at 1.
    rewrite (bool_decide_eq_false_2 _ Hflag).
    unfold bind at 1.
    unfold TraverseFunctionDecl, TraverseDecl. simpl.
    unfold bind at 1. simpl. unfold bind at 1. simpl.
    unfold bind at 1. rewrite VisitDeclStmt_single, Hq.
    destruct (Report (variable_warning L) CI) as [[] CI1]. simpl.
    reflexivity. }
  assert (Hrun : HandleTranslationUnit sm sema TU CI
                 = (tt, snd (Report (variable_warning L) CI))).
  { unfold HandleTranslationUnit, bind. rewrite Hfn, Hvar. reflexivity. }
  rewrite Hrun, (Report_audible _ _ Haud). simpl. split; reflexivity.
Qed.

Lemma C10_entry_point_locals_diagnosed_witness :
  isMain main_fn = true
  /\ reported (Diagnostics
       (snd (HandleTranslationUnit in_main_below_1000 permissive main_unit
               fresh))) =
     [mkDiag 60 (getCustomDiagID Warning "variable can be constexpr") []
             [CreateInsertion 60 "constexpr "]].
Proof.
  split; [reflexivity|].
  apply (C10_entry_point_locals_diagnosed in_main_below_1000 permissive
           main_fn 60 Var x_var fresh eq_refl eq_refl (not_elem_of_empty _)
           eq_refl eq_refl).
Defined.

(** ** The Parameter Literalness Checker *)

Lemma CheckConstexprParameterTypes_from_ok FD ps n CI :
  forallb literal_or_dependent ps = true ->
  CheckConstexprParameterTypes_from FD ps n CI = (true, CI).
Proof.
  revert n. induction ps as [|P ps IH]; intros n H; simpl; [reflexivity|].
  simpl in H. apply andb_prop in H as [HP Hps].
  unfold literal_or_dependent in HP. unfold bind, RequireLiteralType.
  destruct (isDependentType (param_type P)); simpl in *.
  - apply IH. exact Hps.
  - rewrite HP. simpl. apply IH. exact Hps.
Qed.

Lemma CheckConstexprParameterTypes_from_first FD pre P post n CI :
  forallb literal_or_dependent pre = true ->
  isDependentType (param_type P) = false ->
  isLiteralType (param_type P) = false ->
  CheckConstexprParameterTypes_from FD (pre ++ P :: post) n CI =
  (false, snd (Report (non_literal_param_error FD (n + List.length pre) P) CI)).
Proof.
  intros Hpre Hdep Hlit. revert n Hpre.
  induction pre as [|Q pre IH]; intros n Hpre; simpl.
  - rewrite Hdep. unfold bind, RequireLiteralType, Diag. rewrite Hlit. simpl.
    unfold bind, non_literal_param_error. rewrite Nat.add_0_r.
    destruct (Report _ CI) as [[] CI1]. reflexivity.
  - simpl in Hpre. apply andb_prop in Hpre as [HQ Hpre].
    unfold literal_or_dependent in HQ. unfold bind at 1.
    unfold RequireLiteralType.
    replace (n + S (List.length pre)) with (S n + List.length pre) by lia.
    destruct (isDependentType (param_type Q)); simpl in *.
    + apply IH. exact Hpre.
    + rewrite HQ. simpl. apply IH. exact Hpre.
Qed.

Lemma CheckConstexprParameterTypes_from_blind FD FD' answer ps n CI :
  isa_CXXConstructorDecl FD' = isa_CXXConstructorDecl FD ->
  CheckConstexprParameterTypes_from FD'
    (map (answer_if_dependent answer) ps) n CI
  = CheckConstexprParameterTypes_from FD ps n CI.
Proof.
  intros Hk. revert n CI. induction ps as [|P ps IH]; intros n CI; simpl;
    [reflexivity|].
  unfold answer_if_dependent at 1 2 3 4.
  destruct (isDependentType (param_type P)) eqn:Hdep; simpl.
  - unfold bind. simpl. apply IH.
  - rewrite Hdep, Hk. simpl. unfold bind.
    destruct (RequireLiteralType _ _ _ _ CI) as [failed CI1].
    destruct failed; [reflexivity | apply IH].
Qed.

(** C6. The checker answers false at the first parameter whose type is
    neither dependent nor literal, and reports [err_constexpr_non_literal_param]
    with the position of that parameter counted from 1 and its source range;
    it answers true, reporting nothing, when no parameter is of that sort;
    and the answer [isLiteralType] would give for a dependent parameter type
    has no influence on the outcome, wherever the parameter stands. *)
Theorem C6_parameter_checker FD CI :
  (forall pre P post,
     params FD = pre ++ P :: post ->
     forallb literal_or_dependent pre = true ->
     isDependentType (param_type P) = false ->
     isLiteralType (param_type P) = false ->
     CheckConstexprParameterTypes FD CI =
     (false,
      snd (Report
             (mkDiag (parmLocation (getParamDecl P))
                     err_constexpr_non_literal_param
                     [arg_uint (List.length pre + 1);
                      arg_range (parmSourceRange (getParamDecl P));
                      arg_bool (isa_CXXConstructorDecl FD);
                      arg_type (param_type P)] []) CI)))
  /\ (forallb literal_or_dependent (params FD) = true ->
      CheckConstexprParameterTypes FD CI = (true, CI))
  /\ (forall answer,
        CheckConstexprParameterTypes
          (with_params FD (map (answer_if_dependent answer) (params FD))) CI
        = CheckConstexprParameterTypes FD CI)
  /\ (forallb (fun P => isDependentType (param_type P)) (params FD) = true ->
      CheckConstexprParameterTypes FD CI = (true, CI)).
Proof.
  unfold CheckConstexprParameterTypes. repeat split.
  - intros pre P post -> Hpre Hdep Hlit.
    rewrite (CheckConstexprParameterTypes_from_first FD pre P post 0 CI
               Hpre Hdep Hlit).
    reflexivity.
  - apply CheckConstexprParameterTypes_from_ok.
  - intros answer. simpl.
    apply CheckConstexprParameterTypes_from_blind. reflexivity.
  - intros Hdep. apply CheckConstexprParameterTypes_from_ok.
    rewrite forallb_forall in *. intros P HP.
    unfold literal_or_dependent. rewrite (Hdep P HP). reflexivity.
Qed.

Lemma C6_parameter_checker_witness :
  CheckConstexprParameterTypes h_fn fresh =
  (false,
   mkCI ∅ (mkEngine false
     [mkDiag 34 err_constexpr_non_literal_param
             [arg_uint 2; arg_range (mkRange 22 34); arg_bool false;
              arg_type string_type] []]))
  /\ CheckConstexprParameterTypes square fresh = (true, fresh).
Proof.
  split.
  - exact (proj1 (C6_parameter_checker h_fn fresh)
             [mkParam T_type (mkParm 19 (mkRange 17 19))]
             (mkParam string_type (mkParm 34 (mkRange 22 34))) []
             eq_refl eq_refl eq_refl eq_refl).
  - exact (proj1 (proj2 (C6_parameter_checker square fresh)) eq_refl).
Defined.

(** ** The Statement-Body Legality Checker *)

Ltac checker_cases :=
  repeat match goal with
         | |- context [if ?b then _ else _] => destruct b; simpl
         end.

(** The checker on a list of declarators: the front part first; the back part
    only if the front part passes, from where the front part left off. *)
Lemma CheckConstexprDeclStmt_app SemaRef Dcl L pre rest : forall Cxx1yLoc CI,
  CheckConstexprDeclStmt SemaRef Dcl L (pre ++ rest) Cxx1yLoc CI =
  let '(ok, Cxx1yLoc', CI') :=
    CheckConstexprDeclStmt SemaRef Dcl L pre Cxx1yLoc CI in
  if ok then CheckConstexprDeclStmt SemaRef Dcl L rest Cxx1yLoc' CI'
  else (false, Cxx1yLoc', CI').
Proof.
  induction pre as [|D pre IH]; intros Cxx1yLoc CI; [reflexivity|].
  cbn [app CheckConstexprDeclStmt].
  destruct D as [K|alias TN|K isDef members|K VD|FD Body|K decls].
  - destruct K; unfold bind, Diag, Report, ret; checker_cases;
      try apply IH; reflexivity.
  - unfold bind, Diag, Report, ret; checker_cases; try apply IH; reflexivity.
  - destruct K; unfold bind, Diag, Report, ret; checker_cases;
      try apply IH; reflexivity.
  - destruct K; unfold bind, RequireLiteralType, Diag, Report, ret;
      checker_cases; try apply IH; try reflexivity;
      unfold bind, Report; checker_cases; try apply IH; reflexivity.
  - destruct (funcKind FD); unfold bind, Diag, Report, ret; checker_cases;
      try apply IH; reflexivity.
  - unfold bind, Diag, Report, ret; checker_cases; reflexivity.
Qed.

Lemma CheckConstexprDeclStmt_static SemaRef Dcl L K VD post Cxx1yLoc CI :
  K = Var \/ K = Decomposition ->
  isThisDeclarationADefinition VD = true ->
  isStaticLocal VD = true ->
  CheckConstexprDeclStmt SemaRef Dcl L (D_Var K VD :: post) Cxx1yLoc CI =
  (false, Cxx1yLoc, snd (Report (static_local_error Dcl VD) CI)).
Proof.
  intros HK Hdef Hstatic. cbn [CheckConstexprDeclStmt].
  destruct HK as [-> | ->]; rewrite Hdef, Hstatic;
    unfold bind, Diag, static_local_error;
    destruct (Report _ CI) as [[] CI1]; reflexivity.
Qed.

Lemma CheckConstexprDeclStmt_static_anywhere SemaRef Dcl L pre K VD post
    Cxx1yLoc CI :
  K = Var \/ K = Decomposition ->
  isThisDeclarationADefinition VD = true ->
  isStaticLocal VD = true ->
  CheckConstexprDeclStmt SemaRef Dcl L (pre ++ D_Var K VD :: post) Cxx1yLoc CI =
  let '(ok, Cxx1yLoc', CI') :=
    CheckConstexprDeclStmt SemaRef Dcl L pre Cxx1yLoc CI in
  (false, Cxx1yLoc',
   if ok then snd (Report (static_local_error Dcl VD) CI') else CI').
Proof.
  intros HK Hdef Hstatic. rewrite CheckConstexprDeclStmt_app.
  destruct (CheckConstexprDeclStmt SemaRef Dcl L pre Cxx1yLoc CI)
    as [[ok Cx'] CI'].
  destruct ok; [|reflexivity].
  apply CheckConstexprDeclStmt_static; assumption.
Qed.

(** C4. A function whose body has, as a direct child, a declaration statement
    that defines a variable [VD] of static or thread storage duration:
    - [CheckConstexprDeclStmt] answers false on that statement, and what it
      answers, reports and leaves in [Cxx1yLoc] is the same whatever
      declarators follow [VD];
    - when the declarators before [VD] pass, the failure is the one of [VD]:
      [err_constexpr_local_var_static] at its location, after what the
      earlier declarators reported;
    - given that the body rules of [Sema] apply the statement checker to the
      direct child statements of the body, the visit of the function sets no
      constexpr bit and adds no diagnostic. *)
Theorem C4_static_local_rejects sm sema func stmts L pre K VD post CI :
  In (DeclStmt L (pre ++ D_Var K VD :: post)) stmts ->
  K = Var \/ K = Decomposition ->
  isThisDeclarationADefinition VD = true ->
  isStaticLocal VD = true ->
  body_rules_apply_statement_checker sema func (CompoundStmt stmts) ->
  (forall Cxx1yLoc CI0,
     fst (fst (CheckConstexprDeclStmt sema func L (pre ++ D_Var K VD :: post)
                 Cxx1yLoc CI0)) = false
     /\ forall post',
          CheckConstexprDeclStmt sema func L (pre ++ D_Var K VD :: post')
            Cxx1yLoc CI0
          = CheckConstexprDeclStmt sema func L (pre ++ D_Var K VD :: post)
              Cxx1yLoc CI0)
  /\ (forall Cxx1yLoc CI0,
        fst (fst (CheckConstexprDeclStmt sema func L pre Cxx1yLoc CI0)) = true ->
        CheckConstexprDeclStmt sema func L (pre ++ D_Var K VD :: post)
          Cxx1yLoc CI0
        = (false,
           snd (fst (CheckConstexprDeclStmt sema func L pre Cxx1yLoc CI0)),
           snd (Report
                  (mkDiag (getLocation VD) err_constexpr_local_var_static
                     [arg_bool (isa_CXXConstructorDecl func);
                      arg_bool (TLSKind_eqb (getTLSKind VD) TLS_Dynamic)] [])
                  (snd (CheckConstexprDeclStmt sema func L pre Cxx1yLoc CI0)))))
  /\ (let CI' :=
        snd (ConstexprFunctionASTVisitor.VisitFunctionDecl sm sema func
               (Some (CompoundStmt stmts)) CI) in
      constexprDecls CI' = constexprDecls CI
      /\ reported (Diagnostics CI') = reported (Diagnostics CI)).
Proof.
  intros Hin HK Hdef Hstatic Hsema.
  assert (Hfalse : forall Cx CI0,
            fst (fst (CheckConstexprDeclStmt sema func L
                        (pre ++ D_Var K VD :: post) Cx CI0)) = false).
  { intros Cx CI0.
    rewrite (CheckConstexprDeclStmt_static_anywhere sema func L pre K VD post
               Cx CI0 HK Hdef Hstatic).
    destruct (CheckConstexprDeclStmt sema func L pre Cx CI0) as [[ok Cx'] CI1].
    reflexivity. }
  split; [|split].
  - intros Cx CI0. split; [apply Hfalse|].
    intros post'.
    rewrite !CheckConstexprDeclStmt_static_anywhere by assumption.
    reflexivity.
  - intros Cx CI0 Hpre.
    rewrite (CheckConstexprDeclStmt_static_anywhere sema func L pre K VD post
               Cx CI0 HK Hdef Hstatic).
    destruct (CheckConstexprDeclStmt sema func L pre Cx CI0) as [[ok Cx'] CI1].
    simpl in *. subst ok. reflexivity.
  - intros CI'. subst CI'. rewrite VisitFunctionDecl_closed_form.
    assert (He : eligible sema func (Some (CompoundStmt stmts)) = false).
    { unfold eligible.
      rewrite (Hsema stmts L _ eq_refl Hin Hfalse).
      rewrite andb_false_r. reflexivity. }
    rewrite He. destruct (probed sm func CI); split; reflexivity.
Qed.

Lemma C4_static_local_rejects_witness :
  body_rules_apply_statement_checker by_the_book log_fn (CompoundStmt log_stmts)
  /\ CheckConstexprDeclStmt by_the_book log_fn 30
       ([] ++ D_Var Var calls_var :: []) 0 fresh
     = (false, 0,
        mkCI ∅ (mkEngine false
          [mkDiag 41 err_constexpr_local_var_static
                  [arg_bool false; arg_bool false] []]))
  /\ snd (ConstexprFunctionASTVisitor.VisitFunctionDecl in_main_below_1000
            by_the_book log_fn (Some (CompoundStmt log_stmts)) fresh) = fresh.
Proof.
  assert (Hsema : body_rules_apply_statement_checker by_the_book log_fn
                    (CompoundStmt log_stmts)).
  { intros stmts L decls _ _ _. reflexivity. }
  pose proof (C4_static_local_rejects in_main_below_1000 by_the_book log_fn
                log_stmts 30 [] Var calls_var [] fresh
                (or_introl eq_refl) (or_introl eq_refl) eq_refl eq_refl Hsema)
    as [_ [Hat Hvisit]].
  split; [exact Hsema|]. split.
  - exact (Hat 0 fresh eq_refl).
  - simpl in Hvisit. destruct Hvisit as [Hbits Hrep].
    rewrite VisitFunctionDecl_closed_form. reflexivity.
Defined.

(** ** The run is decided by the queries alone *)

Lemma fold_left_pointwise {A B} (f g : A -> B -> A) (l : list B) (a : A) :
  (forall x y, f x y = g x y) -> fold_left f l a = fold_left g l a.
Proof.
  intros H. revert a. induction l as [|y l IH]; intros a; simpl;
    [reflexivity|].
  rewrite H. apply IH.
Qed.

Lemma function_step_by_queries sm sema n CI :
  function_step sm sema n CI = QueriesOnly.function_visit sm sema n CI.
Proof.
  unfold function_step.
  destruct n as [[K|alias TN|K isDef ms|K VD|func Body|K ds]|St];
    try reflexivity.
  simpl. rewrite VisitFunctionDecl_closed_form. reflexivity.
Qed.

Lemma VisitDeclStmt_by_queries L decls CI :
  VisitDeclStmt L decls CI
  = (true, QueriesOnly.statement_visit (N_Stmt (DeclStmt L decls)) CI).
Proof.
  destruct decls as [|D [|D' rest]]; [reflexivity | | ].
  - destruct D as [K|alias TN|K isDef ms|K var|func Body|K ds];
      try reflexivity.
    rewrite VisitDeclStmt_single. simpl.
    destruct (variable_qualifies var CI); [|reflexivity].
    unfold Report, emit. fold (suppressed CI).
    destruct (suppressed CI); reflexivity.
  - destruct D as [K|alias TN|K isDef ms|K var|func Body|K ds];
      reflexivity.
Qed.

Lemma inner_Visit_by_queries n CI :
  ConstexprVarDeclVisitor.Visit n CI
  = (true, QueriesOnly.statement_visit n CI).
Proof.
  destruct n as [D|[L decls|body|children]]; try reflexivity.
  apply VisitDeclStmt_by_queries.
Qed.

Lemma inner_walk_by_queries nodes CI :
  Traverse ConstexprVarDeclVisitor.Visit nodes CI
  = (true, fold_left (fun CI0 m => QueriesOnly.statement_visit m CI0) nodes CI).
Proof.
  rewrite Traverse_fold
    by (intros n CI0; rewrite inner_Visit_by_queries; reflexivity).
  f_equal. apply fold_left_pointwise.
  intros CI0 n. rewrite inner_Visit_by_queries. reflexivity.
Qed.

Lemma variable_Visit_by_queries sm n CI :
  ConstexprVarDeclFunctionASTVisitor.Visit sm n CI
  = (true, QueriesOnly.variable_visit sm n CI).
Proof.
  destruct n as [[K|alias TN|K isDef ms|K VD|func Body|K ds]|St];
    try reflexivity.
  simpl. unfold ConstexprVarDeclFunctionASTVisitor.VisitFunctionDecl.
  destruct (isWrittenInMainFile sm (funcBegin func)); [|reflexivity].
  simpl. unfold bind, isConstexpr.
  destruct (bool_decide (funcID func ∈ constexprDecls CI)); [reflexivity|].
  unfold TraverseFunctionDecl, TraverseDecl.
  rewrite inner_walk_by_queries. reflexivity.
Qed.

Lemma HandleTranslationUnit_by_queries sm sema TU CI :
  HandleTranslationUnit sm sema TU CI
  = (tt, QueriesOnly.HandleTranslationUnit sm sema TU CI).
Proof.
  unfold HandleTranslationUnit, QueriesOnly.HandleTranslationUnit, bind.
  pose proof (function_pass_fold sm sema TU CI) as Hfn.
  unfold function_pass in Hfn.
  destruct (TraverseDecl (ConstexprFunctionASTVisitor.Visit sm sema) TU CI)
    as [ok1 CI1].
  simpl in Hfn. subst CI1. unfold TraverseDecl.
  rewrite Traverse_fold
    by (intros n CI0; rewrite variable_Visit_by_queries; reflexivity).
  unfold ret. f_equal.
  rewrite (fold_left_pointwise
             (fun CI0 n => function_step sm sema n CI0)
             (fun CI0 n => QueriesOnly.function_visit sm sema n CI0))
    by (intros CI0 n; apply function_step_by_queries).
  apply fold_left_pointwise.
  intros CI0 n. rewrite variable_Visit_by_queries. reflexivity.
Qed.

(** C9. Neither visitor consults [CheckConstexprDeclStmt], and the run is the
    run of the program without it:
    - a visit of the function pass is [decided_by_three_answers] applied to
      the verdicts of the three checks;
    - a visit of a declaration statement by the variable pass is
      [QueriesOnly.statement_visit], which looks only at the queries on the
      variable;
    - [HandleTranslationUnit] ends, on every unit and from every state, in
      the state in which [QueriesOnly.HandleTranslationUnit] ends;
    - so under a [Sema] whose two checks pass, [log] is marked and warned
      about although [CheckConstexprDeclStmt] rejects its first statement,
      and the variable pass suggests constexpr for the variable of that
      very statement. *)
Theorem C9_statement_checker_not_consulted :
  (forall sm sema func Body CI,
     ConstexprFunctionASTVisitor.VisitFunctionDecl sm sema func Body CI =
     (true,
      decided_by_three_answers sm func CI
        (fst (CheckConstexprFunctionDecl sema func Body CI))
        (fst (CheckConstexprFunctionBody sema func Body CI))
        (fst (CheckConstexprParameterTypes func CI))))
  /\ (forall L decls CI,
        VisitDeclStmt L decls CI
        = (true, QueriesOnly.statement_visit (N_Stmt (DeclStmt L decls)) CI))
  /\ (forall sm sema TU CI,
        HandleTranslationUnit sm sema TU CI
        = (tt, QueriesOnly.HandleTranslationUnit sm sema TU CI))
  /\ (fst (fst (CheckConstexprDeclStmt permissive log_fn 30
                  [D_Var Var calls_var] 0 fresh)) = false
      /\ snd (ConstexprFunctionASTVisitor.VisitFunctionDecl
                in_main_below_1000 permissive log_fn
                (Some (CompoundStmt log_stmts)) fresh)
         = mark log_fn fresh
      /\ snd (VisitDeclStmt 30 [D_Var Var calls_var] fresh)
         = emit (variable_warning 30) fresh).
Proof.
  split; [|split; [|split]].
  - intros sm sema func Body CI.
    rewrite VisitFunctionDecl_closed_form. unfold decided_by_three_answers.
    pose proof (all_checks_pass_eligible sema func Body CI) as H.
    unfold all_checks_pass in H. rewrite H. reflexivity.
  - exact VisitDeclStmt_by_queries.
  - exact HandleTranslationUnit_by_queries.
  - split; [reflexivity|]. split.
    + rewrite VisitFunctionDecl_closed_form. reflexivity.
    + rewrite VisitDeclStmt_single. reflexivity.
Qed.

(** * Further properties *)

(** Case analysis on the tests that are left in a goal, constants apart. *)
Ltac checker_split :=
  simpl;
  repeat match goal with
         | |- context [if ?b then _ else _] =>
             lazymatch b with
             | true => fail
             | false => fail
             | _ => destruct b; simpl
             end
         end.

(** ** Recording diagnostics *)

Lemma emit_all_nil CI : emit_all [] CI = CI.
Proof.
  unfold emit_all. rewrite app_nil_r. apply CI_eta.
Qed.

Lemma emit_all_app pre news CI :
  emit_all news (emit_all pre CI) = emit_all (pre ++ news) CI.
Proof.
  unfold emit_all, suppressed. simpl. rewrite app_assoc. reflexivity.
Qed.

Lemma Report_emit D CI :
  suppressed CI = false -> Report D CI = (tt, emit_all [D] CI).
Proof.
  intros H. rewrite (Report_audible _ _ H). unfold emit_all. rewrite H.
  reflexivity.
Qed.

(** ** The guards of the function pass *)

(** X1. A function outside the primary file, a function already constexpr
    and the entry point are passed over: the visit leaves the whole state,
    the suppression flag included, as it found it. *)
Theorem function_visit_passes_over sm sema func Body CI :
  isWrittenInMainFile sm (funcBegin func) = false
  \/ funcID func ∈ constexprDecls CI
  \/ isMain func = true ->
  ConstexprFunctionASTVisitor.VisitFunctionDecl sm sema func Body CI
  = (true, CI).
Proof.
  intros H. rewrite VisitFunctionDecl_closed_form.
  assert (Hp : probed sm func CI = false).
  { unfold probed. destruct H as [-> | [H | ->]].
    - reflexivity.
    - rewrite (bool_decide_eq_true_2 _ H). simpl.
      rewrite andb_false_r. reflexivity.
    - apply andb_false_r. }
  rewrite Hp. reflexivity.
Qed.

Lemma function_visit_passes_over_witness :
  ConstexprFunctionASTVisitor.VisitFunctionDecl in_main_below_1000 permissive
    main_fn main_body (mkCI ∅ (mkEngine true []))
  = (true, mkCI ∅ (mkEngine true []))
  /\ ConstexprFunctionASTVisitor.VisitFunctionDecl in_main_below_1000
       permissive header_fn main_body fresh
     = (true, fresh).
Proof.
  split.
  - apply (function_visit_passes_over in_main_below_1000 permissive main_fn
             main_body (mkCI ∅ (mkEngine true []))).
    right. right. reflexivity.
  - apply (function_visit_passes_over in_main_below_1000 permissive header_fn
             main_body fresh).
    left. reflexivity.
Defined.

(** ** More on the Statement-Body Legality Checker *)

(** X2. The verdict of the checker is the conjunction of [decl_allowed] over
    the declarators: it depends neither on the state, nor on the incoming
    [Cxx1yLoc], nor on the language mode, nor on the function the statement
    belongs to, nor on where the statement is. *)
Theorem CheckConstexprDeclStmt_verdict SemaRef Dcl L decls :
  forall Cxx1yLoc CI,
    fst (fst (CheckConstexprDeclStmt SemaRef Dcl L decls Cxx1yLoc CI))
    = forallb decl_allowed decls.
Proof.
  induction decls as [|D rest IH]; intros Cx CI; [reflexivity|].
  cbn [CheckConstexprDeclStmt forallb].
  remember (forallb decl_allowed rest) as tail eqn:Htail in *.
  destruct D as [K|alias TN|K isDef members|K VD|FD Body|K ds].
  - destruct K; unfold bind, Diag, Report, ret; checker_split;
      try apply IH; reflexivity.
  - unfold decl_allowed, bind, Diag, Report, ret.
    destruct (isVariablyModifiedType (getUnderlyingType TN)); checker_split;
      try apply IH; reflexivity.
  - destruct K; unfold bind, Diag, Report, ret; checker_split;
      try apply IH; reflexivity.
  - destruct K; unfold decl_allowed, hasInit, bind, RequireLiteralType, Diag,
      Report, ret;
      destruct (getInit VD), (isThisDeclarationADefinition VD),
        (isStaticLocal VD), (isDependentType (getType VD)),
        (isLiteralType (getType VD)), (isCXXForRangeDecl VD);
      checker_split; try apply IH; try reflexivity;
      unfold bind, Report; checker_split; try apply IH; reflexivity.
  - unfold decl_allowed. destruct (funcKind FD);
      unfold bind, Diag, Report, ret; checker_split;
      try apply IH; reflexivity.
  - unfold bind, Diag, Report, ret; checker_split; reflexivity.
Qed.

Lemma Report_emit_if D CI :
  Report D CI = (tt, emit_all (if suppressed CI then [] else [D]) CI).
Proof.
  destruct (suppressed CI) eqn:H.
  - rewrite (Report_suppressed _ _ H), emit_all_nil. reflexivity.
  - apply Report_emit. exact H.
Qed.

Ltac name_news CI :=
  match goal with
  | |- context [emit_all ?n CI] => exists n
  | _ => exists (@nil Diagnostic); rewrite ?emit_all_nil
  end.

(** One turn of the loop of lines 28-124: an allowed declaration reports at
    most a note and goes on, with [Cxx1yLoc] set if the declaration is one
    that sets it; any other declaration reports an error and ends the
    loop. *)
Lemma CheckConstexprDeclStmt_step SemaRef Dcl L D rest Cxx1yLoc CI :
  exists news,
    (suppressed CI = true -> news = [])
    /\ if decl_allowed D then
         forallb is_advisory news = true
         /\ CheckConstexprDeclStmt SemaRef Dcl L (D :: rest) Cxx1yLoc CI
            = CheckConstexprDeclStmt SemaRef Dcl L rest
                (if sets_Cxx1yLoc D && negb (isValid Cxx1yLoc)
                 then L else Cxx1yLoc)
                (emit_all news CI)
       else
         (suppressed CI = false ->
          exists e, news = [e] /\ is_hard_error e = true)
         /\ CheckConstexprDeclStmt SemaRef Dcl L (D :: rest) Cxx1yLoc CI
            = (false, Cxx1yLoc, emit_all news CI).
Proof.
  cbn [CheckConstexprDeclStmt].
  destruct D as [K|alias TN|K isDef members|K VD|FD Body|K ds].
  - destruct K; unfold bind, Diag, ret; cbv beta iota;
      rewrite ?Report_emit_if;
      cbn [decl_allowed sets_Cxx1yLoc andb];
      name_news CI;
      (split; [intros Hs; rewrite ?Hs; reflexivity|]);
      (split; [|destruct (isValid Cxx1yLoc); reflexivity]);
      first [reflexivity
            | intros Ha; rewrite Ha; eexists; split; reflexivity].
  - unfold decl_allowed, sets_Cxx1yLoc.
    destruct (isVariablyModifiedType (getUnderlyingType TN));
      unfold bind, Diag, ret; cbv beta iota;
      rewrite ?Report_emit_if; cbn [negb andb];
      name_news CI;
      (split; [intros Hs; rewrite ?Hs; reflexivity|]);
      (split; [|reflexivity]);
      first [reflexivity
            | intros Ha; rewrite Ha; eexists; split; reflexivity].
  - destruct K, isDef; unfold bind, Diag, ret; cbv beta iota;
      rewrite ?Report_emit_if;
      cbn [decl_allowed sets_Cxx1yLoc andb];
      name_news CI;
      (split; [intros Hs; rewrite ?Hs; reflexivity|]);
      (split; [|reflexivity]);
      first [reflexivity
            | destruct (suppressed CI), (CPlusPlus14 SemaRef); reflexivity
            | intros Ha; rewrite Ha; eexists; split; reflexivity].
  - destruct K;
      unfold decl_allowed, sets_Cxx1yLoc, hasInit, RequireLiteralType;
      destruct (getInit VD), (isThisDeclarationADefinition VD),
        (isStaticLocal VD), (isDependentType (getType VD)),
        (isLiteralType (getType VD)), (isCXXForRangeDecl VD);
      unfold bind, Diag, ret; cbn [negb andb orb app];
      repeat (progress (cbv beta iota; rewrite ?Report_emit_if));
      name_news CI;
      (split; [intros Hs; rewrite ?Hs; reflexivity|]);
      (split; [|reflexivity]);
      first [reflexivity
            | destruct (suppressed CI), (CPlusPlus14 SemaRef); reflexivity
            | intros Ha; rewrite Ha; eexists; split; reflexivity].
  - unfold decl_allowed, sets_Cxx1yLoc. destruct (funcKind FD);
      unfold bind, Diag, ret; cbv beta iota;
      rewrite ?Report_emit_if; cbn [andb];
      name_news CI;
      (split; [intros Hs; rewrite ?Hs; reflexivity|]);
      (split; [|destruct (isValid Cxx1yLoc); reflexivity]);
      first [reflexivity
            | intros Ha; rewrite Ha; eexists; split; reflexivity].
  - unfold bind, Diag, ret; cbv beta iota; rewrite ?Report_emit_if;
      cbn [decl_allowed sets_Cxx1yLoc andb];
      name_news CI;
      (split; [intros Hs; rewrite ?Hs; reflexivity|]);
      (split; [|reflexivity]);
      intros Ha; rewrite Ha; eexists; split; reflexivity.
Qed.

Lemma Cxx1yLoc_kept_or_set SemaRef Dcl L decls : forall Cxx1yLoc CI,
  let out := snd (fst (CheckConstexprDeclStmt SemaRef Dcl L decls Cxx1yLoc CI))
  in out = Cxx1yLoc \/ (isValid Cxx1yLoc = false /\ out = L).
Proof.
  induction decls as [|D rest IH]; intros Cx CI out; subst out.
  { left. reflexivity. }
  destruct (CheckConstexprDeclStmt_step SemaRef Dcl L D rest Cx CI)
    as (news & _ & Hstep).
  destruct (decl_allowed D).
  - destruct Hstep as [_ ->].
    destruct (sets_Cxx1yLoc D); simpl; [|apply IH].
    destruct (isValid Cx) eqn:Hv; simpl.
    + destruct (IH Cx (emit_all news CI)) as [H | [H _]];
        [left; exact H | congruence].
    + right. split; [reflexivity|].
      destruct (IH L (emit_all news CI)) as [H | [_ H]]; exact H.
  - destruct Hstep as [_ ->]. left. reflexivity.
Qed.

(** X3. [Cxx1yLoc] is set at most once: a valid incoming location comes back
    as it is; otherwise what comes back is either the incoming location or
    the start of the statement, and it is the start of the statement when
    the statement passes and declares a namespace alias or a function. *)
Theorem CheckConstexprDeclStmt_Cxx1yLoc SemaRef Dcl L decls Cxx1yLoc CI :
  let out := snd (fst (CheckConstexprDeclStmt SemaRef Dcl L decls Cxx1yLoc CI))
  in
  (isValid Cxx1yLoc = true -> out = Cxx1yLoc)
  /\ (out = Cxx1yLoc \/ out = L)
  /\ (isValid Cxx1yLoc = false ->
      forallb decl_allowed decls = true ->
      existsb sets_Cxx1yLoc decls = true ->
      out = L).
Proof.
  intros out. subst out.
  pose proof (Cxx1yLoc_kept_or_set SemaRef Dcl L decls Cxx1yLoc CI) as Hinv.
  simpl in Hinv.
  split; [|split].
  - intros Hv. destruct Hinv as [H | [H _]]; [exact H | congruence].
  - destruct Hinv as [H | [_ H]]; [left | right]; exact H.
  - clear Hinv. revert Cxx1yLoc CI.
    induction decls as [|D rest IH]; intros Cx CI Hv Hall Hex;
      [discriminate|].
    simpl in Hall, Hex. apply andb_prop in Hall as [HD Hrest].
    destruct (CheckConstexprDeclStmt_step SemaRef Dcl L D rest Cx CI)
      as (news & _ & Hstep).
    rewrite HD in Hstep. destruct Hstep as [_ ->].
    rewrite Hv. destruct (sets_Cxx1yLoc D); simpl in *.
    + destruct (Cxx1yLoc_kept_or_set SemaRef Dcl L rest L (emit_all news CI))
        as [H | [_ H]]; exact H.
    + apply IH; assumption.
Qed.

Lemma CheckConstexprDeclStmt_Cxx1yLoc_witness :
  snd (fst (CheckConstexprDeclStmt permissive log_fn 30
              [D_Leaf Using; D_Function local_prototype None] 0 fresh)) = 30
  /\ snd (fst (CheckConstexprDeclStmt permissive log_fn 30
                 [D_Leaf Using; D_Function local_prototype None] 7 fresh)) = 7.
Proof.
  split.
  - apply (CheckConstexprDeclStmt_Cxx1yLoc permissive log_fn 30
             [D_Leaf Using; D_Function local_prototype None] 0 fresh);
      reflexivity.
  - apply (CheckConstexprDeclStmt_Cxx1yLoc permissive log_fn 30
             [D_Leaf Using; D_Function local_prototype None] 7 fresh).
    reflexivity.
Defined.

Lemma CheckConstexprDeclStmt_accounting SemaRef Dcl L decls :
  forall Cxx1yLoc CI,
  exists news,
    snd (CheckConstexprDeclStmt SemaRef Dcl L decls Cxx1yLoc CI)
    = emit_all news CI
    /\ (suppressed CI = true -> news = [])
    /\ if fst (fst (CheckConstexprDeclStmt SemaRef Dcl L decls Cxx1yLoc CI))
       then forallb is_advisory news = true
       else suppressed CI = false ->
            exists front e,
              news = front ++ [e]
              /\ forallb is_advisory front = true
              /\ is_hard_error e = true.
Proof.
  induction decls as [|D rest IH]; intros Cx CI.
  { exists []. simpl. rewrite emit_all_nil. repeat split. }
  destruct (CheckConstexprDeclStmt_step SemaRef Dcl L D rest Cx CI)
    as (news & Hsup & Hstep).
  destruct (decl_allowed D).
  - destruct Hstep as [Hadv ->].
    destruct (IH (if sets_Cxx1yLoc D && negb (isValid Cx) then L else Cx)
                 (emit_all news CI)) as (news' & Hst & Hsup' & Hv).
    exists (news ++ news'). rewrite Hst, emit_all_app.
    split; [reflexivity|]. split.
    + intros Hs. rewrite (Hsup Hs), (Hsup' Hs). reflexivity.
    + destruct (fst (fst (CheckConstexprDeclStmt SemaRef Dcl L rest _ _))).
      * rewrite forallb_app, Hadv, Hv. reflexivity.
      * intros Hs. destruct (Hv Hs) as (front & e & -> & Hfront & He).
        exists (news ++ front), e. rewrite app_assoc.
        split; [reflexivity|]. rewrite forallb_app, Hadv, Hfront.
        split; [reflexivity | exact He].
  - destruct Hstep as [Herr ->]. exists news. simpl.
    split; [reflexivity|]. split; [exact Hsup|].
    intros Hs. destruct (Herr Hs) as (e & -> & He).
    exists [], e. repeat split. exact He.
Qed.

(** X4. With diagnostics audible the checker only adds diagnostics, and leaves
    the constexpr bits and the suppression flag alone; when it answers true
    everything it added is a note, and when it answers false it added an
    error: the first diagnostic it added that is not one of its notes is
    one of its five errors. *)
Theorem CheckConstexprDeclStmt_reports SemaRef Dcl L decls Cxx1yLoc CI :
  SuppressAllDiagnostics (Diagnostics CI) = false ->
  exists news,
    snd (CheckConstexprDeclStmt SemaRef Dcl L decls Cxx1yLoc CI)
    = mkCI (constexprDecls CI)
           (mkEngine false (reported (Diagnostics CI) ++ news))
    /\ if fst (fst (CheckConstexprDeclStmt SemaRef Dcl L decls Cxx1yLoc CI))
       then forallb is_advisory news = true
       else exists front e rest,
              news = front ++ e :: rest
              /\ forallb is_advisory front = true
              /\ is_hard_error e = true.
Proof.
  intros Haud.
  destruct (CheckConstexprDeclStmt_accounting SemaRef Dcl L decls Cxx1yLoc CI)
    as (news & Hst & _ & Hv).
  exists news. rewrite Hst. unfold emit_all, suppressed. rewrite Haud.
  split; [reflexivity|].
  destruct (fst (fst (CheckConstexprDeclStmt SemaRef Dcl L decls Cxx1yLoc CI)));
    [exact Hv|].
  destruct (Hv Haud) as (front & e & Hnews & Hfront & He).
  exists front, e, []. repeat split; assumption.
Qed.

Lemma CheckConstexprDeclStmt_reports_witness :
  exists news,
    snd (CheckConstexprDeclStmt permissive log_fn 30
           [D_Var Var x_var; D_TypedefName false vla_typedef; D_Leaf Using] 0
           fresh)
    = mkCI ∅ (mkEngine false ([] ++ news))
    /\ exists front e rest,
         news = front ++ e :: rest
         /\ forallb is_advisory front = true /\ is_hard_error e = true.
Proof.
  exact (CheckConstexprDeclStmt_reports permissive log_fn 30
           [D_Var Var x_var; D_TypedefName false vla_typedef; D_Leaf Using] 0
           fresh eq_refl).
Defined.

(** X5. While diagnostics are suppressed, as they are throughout the probe
    of the function pass, the checker leaves the state untouched. *)
Theorem CheckConstexprDeclStmt_silent SemaRef Dcl L decls Cxx1yLoc CI :
  SuppressAllDiagnostics (Diagnostics CI) = true ->
  snd (CheckConstexprDeclStmt SemaRef Dcl L decls Cxx1yLoc CI) = CI.
Proof.
  intros Hs.
  destruct (CheckConstexprDeclStmt_accounting SemaRef Dcl L decls Cxx1yLoc CI)
    as (news & Hst & Hsup & _).
  rewrite Hst, (Hsup Hs). apply emit_all_nil.
Qed.

Lemma CheckConstexprDeclStmt_silent_witness :
  snd (CheckConstexprDeclStmt permissive log_fn 30 [D_Var Var calls_var] 0
         (mkCI ∅ (mkEngine true [])))
  = mkCI ∅ (mkEngine true []).
Proof.
  exact (CheckConstexprDeclStmt_silent permissive log_fn 30
           [D_Var Var calls_var] 0 (mkCI ∅ (mkEngine true [])) eq_refl).
Defined.

(** ** Subtrees *)

Lemma incl_flat_map_member {A B} (f : A -> list B) (x : A) (l : list A) :
  In x l -> incl (f x) (flat_map f l).
Proof.
  intros Hx y Hy. apply in_flat_map. exists x. split; assumption.
Qed.

Lemma subtree_of_children {A} (sub : A -> list Node) (root : Node)
    (children : list A) (n : Node) :
  Forall (fun c => forall m, In m (sub c) -> incl (preorder_Node m) (sub c))
         children ->
  In n (flat_map sub children) ->
  incl (preorder_Node n) (root :: flat_map sub children).
Proof.
  intros Hall Hn. apply in_flat_map in Hn as (c & Hc & Hn).
  rewrite List.Forall_forall in Hall.
  apply incl_tl. eapply incl_tran; [apply (Hall c Hc n Hn)|].
  apply incl_flat_map_member. exact Hc.
Qed.

(** The walk started at a node of a tree stays within the walk of the
    tree. *)
Lemma subtree_Decl T :
  forall n, In n (preorder_Decl T) -> incl (preorder_Node n) (preorder_Decl T).
Proof.
  apply (Decl_tree_ind
    (fun T => forall n, In n (preorder_Decl T) ->
                        incl (preorder_Node n) (preorder_Decl T))
    (fun St => forall n, In n (preorder_Stmt St) ->
                         incl (preorder_Node n) (preorder_Stmt St)));
    clear T.
  - intros K n [<- | []]. apply incl_refl.
  - intros alias TN n [<- | []]. apply incl_refl.
  - intros K isDef members IH n [<- | Hn]; [apply incl_refl|].
    exact (subtree_of_children preorder_Decl _ members n IH Hn).
  - intros K VD n [<- | []]. apply incl_refl.
  - intros FD n [<- | []]. apply incl_refl.
  - intros FD Body IH n [<- | Hn]; [apply incl_refl|].
    apply incl_tl. apply IH. exact Hn.
  - intros K decls IH n [<- | Hn]; [apply incl_refl|].
    exact (subtree_of_children preorder_Decl _ decls n IH Hn).
  - intros L decls IH n [<- | Hn]; [apply incl_refl|].
    exact (subtree_of_children preorder_Decl _ decls n IH Hn).
  - intros body IH n [<- | Hn]; [apply incl_refl|].
    exact (subtree_of_children preorder_Stmt _ body n IH Hn).
  - intros children IH n [<- | Hn]; [apply incl_refl|].
    exact (subtree_of_children preorder_Stmt _ children n IH Hn).
Qed.

(** ** What the function pass adds *)

Lemma probed_facts sm func CI :
  probed sm func CI = true ->
  isWrittenInMainFile sm (funcBegin func) = true
  /\ (funcID func ∉ constexprDecls CI)
  /\ isMain func = false.
Proof.
  unfold probed. intros H.
  apply andb_prop in H as [H Hmain]. apply andb_prop in H as [Hfile Hflag].
  apply negb_true_iff in Hmain, Hflag. apply bool_decide_eq_false in Hflag.
  repeat split; assumption.
Qed.

Lemma function_step_cases sm sema n CI :
  (exists func Body,
     n = N_Decl (D_Function func Body)
     /\ probed sm func CI = true /\ eligible sema func Body = true
     /\ function_step sm sema n CI = mark func CI)
  \/ (constexprDecls (function_step sm sema n CI) = constexprDecls CI
      /\ reported (Diagnostics (function_step sm sema n CI))
         = reported (Diagnostics CI)).
Proof.
  unfold function_step.
  destruct n as [[K|alias TN|K isDef ms|K VD|func Body|K ds]|St]; simpl;
    try (right; split; reflexivity).
  rewrite VisitFunctionDecl_closed_form. simpl.
  destruct (probed sm func CI) eqn:Hp; [|right; split; reflexivity].
  destruct (eligible sema func Body) eqn:He; [|right; split; reflexivity].
  left. exists func, Body.
  split; [reflexivity|]. split; [exact Hp|]. split; [exact He|reflexivity].
Qed.

Lemma function_fold_accounting sm sema nodes : forall CI,
  exists fs : list (FunctionDecl * option Stmt),
    sublist (map function_node fs) nodes
    /\ Forall (fun fb =>
                 In (function_node fb) nodes
                 /\ isWrittenInMainFile sm (funcBegin (fst fb)) = true
                 /\ isMain (fst fb) = false
                 /\ eligible sema (fst fb) (snd fb) = true
                 /\ funcID (fst fb) ∉ constexprDecls CI) fs
    /\ reported (Diagnostics
         (fold_left (fun CI0 n => function_step sm sema n CI0) nodes CI))
       = reported (Diagnostics CI)
         ++ map (fun fb => function_warning (funcBegin (fst fb))) fs
    /\ forall id,
         id ∈ constexprDecls
                (fold_left (fun CI0 n => function_step sm sema n CI0) nodes CI)
         <-> id ∈ constexprDecls CI
             \/ In id (map (fun fb => funcID (fst fb)) fs).
Proof.
  induction nodes as [|n rest IH]; intros CI.
  { exists []. simpl. rewrite app_nil_r.
    split; [constructor|]. split; [constructor|]. split; [reflexivity|].
    intros id. tauto. }
  simpl.
  destruct (IH (function_step sm sema n CI))
    as (fs & Hsub & Hfs & Hrep & Hbits).
  destruct (function_step_cases sm sema n CI)
    as [(func & Body & -> & Hp & He & Hstep) | [Hsame_bits Hsame_rep]].
  - apply probed_facts in Hp as (Hfile & Hflag & Hmain).
    exists ((func, Body) :: fs). split; [|split; [|split]].
    + simpl. unfold function_node at 1. simpl. apply sublist_skip. exact Hsub.
    + constructor.
      * unfold function_node. simpl. repeat split; try assumption.
        left. reflexivity.
      * eapply List.Forall_impl; [|exact Hfs].
        intros fb (Hin & H1 & H2 & H3 & H4).
        repeat split; try assumption; [right; exact Hin|].
        rewrite Hstep in H4. unfold mark in H4. simpl in H4.
        intros Hc. apply H4. apply elem_of_union. right. exact Hc.
    + rewrite Hrep, Hstep. unfold mark. simpl. rewrite <- app_assoc.
      reflexivity.
    + intros id. rewrite Hbits, Hstep. unfold mark. simpl.
      rewrite elem_of_union, elem_of_singleton.
      split; [intros [[-> | H] | H] | intros [H | [<- | H]]]; tauto.
  - exists fs. split; [|split; [|split]].
    + apply sublist_cons. exact Hsub.
    + eapply List.Forall_impl; [|exact Hfs].
      intros fb (Hin & H1 & H2 & H3 & H4).
      repeat split; try assumption; [right; exact Hin|].
      rewrite Hsame_bits in H4. exact H4.
    + rewrite Hrep, Hsame_rep. reflexivity.
    + intros id. rewrite Hbits, Hsame_bits. reflexivity.
Qed.

(** X6. The function pass adds one diagnostic for each function it marks, in
    the order of the walk, and nothing else: the marked functions, taken in
    the order of their warnings, are a subsequence of the walk over the
    unit; the diagnostics added are the function warnings at their starts;
    every marked function is in the primary file, is not the entry point,
    was not constexpr and passes the three checks; and the constexpr bits
    afterwards are those of before and those of the marked functions. No
    diagnostic of [Sema] comes through. *)
Theorem function_pass_accounting sm sema TU CI :
  exists fs : list (FunctionDecl * option Stmt),
    sublist (map function_node fs) (preorder_Decl TU)
    /\ Forall (markable sm sema TU CI) fs
    /\ reported (Diagnostics (function_pass sm sema TU CI))
       = reported (Diagnostics CI)
         ++ map (fun fb => function_warning (funcBegin (fst fb))) fs
    /\ forall id,
         id ∈ constexprDecls (function_pass sm sema TU CI)
         <-> id ∈ constexprDecls CI
             \/ In id (map (fun fb => funcID (fst fb)) fs).
Proof.
  rewrite function_pass_fold.
  exact (function_fold_accounting sm sema (preorder_Decl TU) CI).
Qed.

(** X7. A declaration that is not constexpr stays that way through the
    function pass when every function of the unit that carries its id is
    outside the primary file, is the entry point, or fails one of the three
    checks; so the bits of variables and of such functions are never
    written. *)
Theorem function_pass_never_marks sm sema TU CI id :
  id ∉ constexprDecls CI ->
  (forall func Body,
     In (N_Decl (D_Function func Body)) (preorder_Decl TU) ->
     funcID func = id ->
     isWrittenInMainFile sm (funcBegin func) = false
     \/ isMain func = true
     \/ eligible sema func Body = false) ->
  id ∉ constexprDecls (function_pass sm sema TU CI).
Proof.
  intros Hid Hnone Hafter.
  rewrite function_pass_fold in Hafter.
  destruct (function_fold_accounting sm sema (preorder_Decl TU) CI)
    as (fs & _ & Hfs & _ & Hbits).
  destruct (proj1 (Hbits id) Hafter) as [Hbefore | Hmarked];
    [exact (Hid Hbefore)|].
  apply in_map_iff in Hmarked as ([func Body] & Heq & Hin).
  rewrite List.Forall_forall in Hfs.
  destruct (Hfs _ Hin) as (Hnode & Hfile & Hmain & He & _). simpl in *.
  destruct (Hnone func Body Hnode Heq) as [H | [H | H]]; congruence.
Qed.

Lemma function_pass_never_marks_witness :
  (funcID main_fn ∉
     constexprDecls
       (function_pass in_main_below_1000 permissive main_unit fresh))
  /\ (varID x_var ∉
        constexprDecls
          (function_pass in_main_below_1000 permissive main_unit fresh)).
Proof.
  split.
  - apply (function_pass_never_marks in_main_below_1000 permissive main_unit
             fresh (funcID main_fn) (not_elem_of_empty _)).
    intros func Body Hin Hid. simpl in Hin.
    destruct Hin as [H | [H | [H | [H | [H | []]]]]]; try discriminate.
    injection H as <- <-. right. left. reflexivity.
  - apply (function_pass_never_marks in_main_below_1000 permissive main_unit
             fresh (varID x_var) (not_elem_of_empty _)).
    intros func Body Hin Hid. simpl in Hin.
    destruct Hin as [H | [H | [H | [H | [H | []]]]]]; try discriminate.
    injection H as <- <-. discriminate.
Defined.

(** ** What the variable pass adds *)

Lemma VisitDeclStmt_cases L decls CI :
  VisitDeclStmt L decls CI = (true, CI)
  \/ exists K var,
       decls = [D_Var K var]
       /\ variable_qualifies var CI = true
       /\ suppressed CI = false
       /\ VisitDeclStmt L decls CI = (true, emit_all [variable_warning L] CI).
Proof.
  destruct decls as [|D [|D' rest]]; [left; reflexivity | | left; reflexivity].
  destruct D as [K|alias TN|K isDef ms|K var|func Body|K ds];
    try (left; reflexivity).
  rewrite VisitDeclStmt_single.
  destruct (variable_qualifies var CI) eqn:Hq; [|left; reflexivity].
  destruct (suppressed CI) eqn:Hs.
  - left. rewrite (Report_suppressed _ _ Hs). reflexivity.
  - right. exists K, var. rewrite (Report_emit _ _ Hs).
    repeat split; assumption.
Qed.

(** X8. A declaration statement that declares something, but not exactly one
    variable (it declares several things, or one class, typedef, function
    or other non-variable), is left alone by the variable pass. *)
Theorem VisitDeclStmt_needs_one_variable L decls CI :
  decls <> [] ->
  (forall K var, decls <> [D_Var K var]) ->
  VisitDeclStmt L decls CI = (true, CI).
Proof.
  intros _ Hnot.
  destruct (VisitDeclStmt_cases L decls CI) as [H | (K & var & Heq & _)];
    [exact H|].
  destruct (Hnot K var Heq).
Qed.

Lemma VisitDeclStmt_needs_one_variable_witness :
  VisitDeclStmt 40 [D_Tag CXXRecord true [D_Function g_fn g_body]] fresh
  = (true, fresh).
Proof.
  apply (VisitDeclStmt_needs_one_variable 40
           [D_Tag CXXRecord true [D_Function g_fn g_body]] fresh).
  - discriminate.
  - intros K var H. discriminate.
Defined.

(** X9. The variable pass turns back at a function outside the primary file
    and at a function that is constexpr: nothing below it is looked at and
    the state is as before. *)
Theorem variable_visit_passes_over sm func Body CI :
  isWrittenInMainFile sm (funcBegin func) = false
  \/ funcID func ∈ constexprDecls CI ->
  ConstexprVarDeclFunctionASTVisitor.VisitFunctionDecl sm func Body CI
  = (true, CI).
Proof.
  intros [Hfile | Hflag].
  - unfold ConstexprVarDeclFunctionASTVisitor.VisitFunctionDecl.
    rewrite Hfile. reflexivity.
  - apply variable_pass_skips_constexpr_function. exact Hflag.
Qed.

Lemma variable_visit_passes_over_witness :
  ConstexprVarDeclFunctionASTVisitor.VisitFunctionDecl in_main_below_1000
    header_fn main_body fresh
  = (true, fresh).
Proof.
  apply (variable_visit_passes_over in_main_below_1000 header_fn main_body
           fresh).
  left. reflexivity.
Defined.

Lemma VisitDeclStmt_cases_framed L decls CI :
  (forall pre,
     VisitDeclStmt L decls (emit_all pre CI) = (true, emit_all pre CI))
  \/ exists K var,
       decls = [D_Var K var]
       /\ variable_qualifies var CI = true
       /\ suppressed CI = false
       /\ forall pre,
            VisitDeclStmt L decls (emit_all pre CI)
            = (true, emit_all (pre ++ [variable_warning L]) CI).
Proof.
  destruct decls as [|D [|D' rest]];
    [left; reflexivity | | left; reflexivity].
  destruct D as [K|alias TN|K isDef ms|K var|func Body|K ds];
    try (left; reflexivity).
  destruct (variable_qualifies var CI) eqn:Hq.
  - destruct (suppressed CI) eqn:Hs.
    + left. intros pre. rewrite VisitDeclStmt_single.
      change (variable_qualifies var (emit_all pre CI))
        with (variable_qualifies var CI).
      rewrite Hq, Report_suppressed by exact Hs. reflexivity.
    + right. exists K, var. repeat split; try assumption.
      intros pre. rewrite VisitDeclStmt_single.
      change (variable_qualifies var (emit_all pre CI))
        with (variable_qualifies var CI).
      rewrite Hq, Report_emit by exact Hs. rewrite emit_all_app. reflexivity.
  - left. intros pre. rewrite VisitDeclStmt_single.
    change (variable_qualifies var (emit_all pre CI))
      with (variable_qualifies var CI).
    rewrite Hq. reflexivity.
Qed.

(** The walk of the inner visitor over a list of nodes: what it adds does
    not depend on what has been reported before. *)
Lemma inner_walk_accounting nodes : forall CI,
  exists locs,
    (forall pre,
       Traverse ConstexprVarDeclVisitor.Visit nodes (emit_all pre CI)
       = (true, emit_all (pre ++ map variable_warning locs) CI))
    /\ (suppressed CI = true -> locs = [])
    /\ Forall (fun L => exists K var,
                 In (N_Stmt (DeclStmt L [D_Var K var])) nodes
                 /\ variable_qualifies var CI = true) locs.
Proof.
  induction nodes as [|n rest IH]; intros CI.
  { exists []. simpl. split; [|split; [reflexivity | constructor]].
    intros pre. rewrite app_nil_r. reflexivity. }
  destruct (IH CI) as (locs & Hrun & Hsup & Hlocs).
  assert (Hlater :
    Forall (fun L => exists K var,
              In (N_Stmt (DeclStmt L [D_Var K var])) (n :: rest)
              /\ variable_qualifies var CI = true) locs).
  { eapply List.Forall_impl; [|exact Hlocs].
    intros L (K & var & Hin & Hq). exists K, var.
    split; [right; exact Hin | exact Hq]. }
  assert (Hskip :
    (forall pre, ConstexprVarDeclVisitor.Visit n (emit_all pre CI)
                 = (true, emit_all pre CI)) ->
    exists locs,
      (forall pre,
         Traverse ConstexprVarDeclVisitor.Visit (n :: rest) (emit_all pre CI)
         = (true, emit_all (pre ++ map variable_warning locs) CI))
      /\ (suppressed CI = true -> locs = [])
      /\ Forall (fun L => exists K var,
                   In (N_Stmt (DeclStmt L [D_Var K var])) (n :: rest)
                   /\ variable_qualifies var CI = true) locs).
  { intros Hn. exists locs. split; [|split; assumption].
    intros pre. simpl. unfold bind. rewrite Hn. apply Hrun. }
  destruct n as [D|[L decls|body|children]];
    try (apply Hskip; reflexivity).
  destruct (VisitDeclStmt_cases_framed L decls CI)
    as [H | (K & var & -> & Hq & Hs & H)]; [apply Hskip; exact H|].
  exists (L :: locs). split; [|split].
  - intros pre. simpl. unfold bind. rewrite H, Hrun, <- app_assoc.
    reflexivity.
  - congruence.
  - constructor; [|exact Hlater].
    exists K, var. split; [left; reflexivity | exact Hq].
Qed.

Lemma variable_Visit_accounting sm n CI :
  exists locs,
    (forall pre,
       ConstexprVarDeclFunctionASTVisitor.Visit sm n (emit_all pre CI)
       = (true, emit_all (pre ++ map variable_warning locs) CI))
    /\ (suppressed CI = true -> locs = [])
    /\ Forall (fun L => exists K var,
                 In (N_Stmt (DeclStmt L [D_Var K var])) (preorder_Node n)
                 /\ variable_qualifies var CI = true) locs.
Proof.
  assert (Hnone :
    (forall pre, ConstexprVarDeclFunctionASTVisitor.Visit sm n (emit_all pre CI)
                 = (true, emit_all pre CI)) ->
    exists locs,
      (forall pre,
         ConstexprVarDeclFunctionASTVisitor.Visit sm n (emit_all pre CI)
         = (true, emit_all (pre ++ map variable_warning locs) CI))
      /\ (suppressed CI = true -> locs = [])
      /\ Forall (fun L => exists K var,
                   In (N_Stmt (DeclStmt L [D_Var K var])) (preorder_Node n)
                   /\ variable_qualifies var CI = true) locs).
  { intros H. exists []. split; [|split; [reflexivity | constructor]].
    intros pre. simpl. rewrite app_nil_r. apply H. }
  destruct n as [[K|alias TN|K isDef ms|K VD|func Body|K ds]|St];
    try (apply Hnone; reflexivity).
  assert (Hunfold : forall pre,
    ConstexprVarDeclFunctionASTVisitor.Visit sm (N_Decl (D_Function func Body))
      (emit_all pre CI)
    = if negb (isWrittenInMainFile sm (funcBegin func)) then
        (true, emit_all pre CI)
      else if bool_decide (funcID func ∈ constexprDecls CI) then
        (true, emit_all pre CI)
      else
        (true,
         snd (Traverse ConstexprVarDeclVisitor.Visit
                (preorder_Decl (D_Function func Body)) (emit_all pre CI)))).
  { intros pre. cbn [ConstexprVarDeclFunctionASTVisitor.Visit].
    unfold ConstexprVarDeclFunctionASTVisitor.VisitFunctionDecl.
    destruct (isWrittenInMainFile sm (funcBegin func)); [|reflexivity].
    cbn [negb]. unfold bind, isConstexpr.
    change (constexprDecls (emit_all pre CI)) with (constexprDecls CI).
    destruct (bool_decide (funcID func ∈ constexprDecls CI)); [reflexivity|].
    unfold TraverseFunctionDecl, TraverseDecl.
    destruct (Traverse _ _ (emit_all pre CI)). reflexivity. }
  destruct (isWrittenInMainFile sm (funcBegin func)) eqn:Hfile;
    [|apply Hnone; exact Hunfold].
  destruct (bool_decide (funcID func ∈ constexprDecls CI)) eqn:Hflag;
    [apply Hnone; exact Hunfold|].
  destruct (inner_walk_accounting (preorder_Decl (D_Function func Body)) CI)
    as (locs & Hrun & Hsup & Hlocs).
  exists locs. split; [|split; assumption].
  intros pre. rewrite Hunfold, Hrun. reflexivity.
Qed.

Lemma variable_walk_accounting sm all nodes : forall CI,
  (forall n, In n nodes -> incl (preorder_Node n) all) ->
  exists locs,
    (forall pre,
       Traverse (ConstexprVarDeclFunctionASTVisitor.Visit sm) nodes
                (emit_all pre CI)
       = (true, emit_all (pre ++ map variable_warning locs) CI))
    /\ (suppressed CI = true -> locs = [])
    /\ Forall (fun L => exists K var,
                 In (N_Stmt (DeclStmt L [D_Var K var])) all
                 /\ variable_qualifies var CI = true) locs.
Proof.
  induction nodes as [|n rest IH]; intros CI Hsub.
  { exists []. simpl. split; [|split; [reflexivity | constructor]].
    intros pre. rewrite app_nil_r. reflexivity. }
  destruct (variable_Visit_accounting sm n CI) as (l1 & Hn & Hs1 & Hl1).
  destruct (IH CI) as (l2 & Hr & Hs2 & Hl2).
  { intros m Hm. apply Hsub. right. exact Hm. }
  exists (l1 ++ l2). split; [|split].
  - intros pre. simpl. unfold bind.
    rewrite Hn, Hr, map_app, app_assoc. reflexivity.
  - intros Hs. rewrite (Hs1 Hs), (Hs2 Hs). reflexivity.
  - apply Forall_app. split; [|exact Hl2].
    eapply List.Forall_impl; [|exact Hl1].
    intros L (K & var & Hin & Hq). exists K, var.
    split; [|exact Hq]. apply (Hsub n (or_introl eq_refl)). exact Hin.
Qed.

Lemma variable_pass_framed sm TU CI :
  exists locs,
    (forall pre,
       variable_pass sm TU (emit_all pre CI)
       = emit_all (pre ++ map variable_warning locs) CI)
    /\ (suppressed CI = true -> locs = [])
    /\ Forall (fun L => exists K var,
                 In (N_Stmt (DeclStmt L [D_Var K var])) (preorder_Decl TU)
                 /\ variable_qualifies var CI = true) locs.
Proof.
  destruct (variable_walk_accounting sm (preorder_Decl TU)
              (preorder_Decl TU) CI) as (locs & Hrun & Hsup & Hlocs).
  { intros n Hn. apply subtree_Decl. exact Hn. }
  exists locs. split; [|split; assumption].
  intros pre. unfold variable_pass, TraverseDecl. rewrite Hrun. reflexivity.
Qed.

(** X10. The variable pass writes no constexpr bit and does not touch the
    suppression flag; all it does is add "variable can be constexpr"
    warnings, each at the start of a statement of the unit that declares one
    variable passing the variable checks, and none at all while diagnostics
    are suppressed. *)
Theorem variable_pass_accounting sm TU CI :
  exists locs,
    variable_pass sm TU CI
    = mkCI (constexprDecls CI)
           (mkEngine (SuppressAllDiagnostics (Diagnostics CI))
                     (reported (Diagnostics CI) ++ map variable_warning locs))
    /\ (SuppressAllDiagnostics (Diagnostics CI) = true -> locs = [])
    /\ Forall (fun L => exists K var,
                 In (N_Stmt (DeclStmt L [D_Var K var])) (preorder_Decl TU)
                 /\ variable_qualifies var CI = true) locs.
Proof.
  destruct (variable_pass_framed sm TU CI) as (locs & Hrun & Hsup & Hlocs).
  exists locs. split; [|split; assumption].
  specialize (Hrun []). rewrite emit_all_nil in Hrun. exact Hrun.
Qed.

(** ** The whole run *)

Lemma HandleTranslationUnit_passes sm sema TU CI :
  snd (HandleTranslationUnit sm sema TU CI)
  = variable_pass sm TU (function_pass sm sema TU CI).
Proof.
  unfold HandleTranslationUnit, variable_pass, function_pass, bind.
  destruct (TraverseDecl (ConstexprFunctionASTVisitor.Visit sm sema) TU CI)
    as [ok1 CI1].
  cbn [snd].
  destruct (TraverseDecl (ConstexprVarDeclFunctionASTVisitor.Visit sm) TU CI1)
    as [ok2 CI2].
  reflexivity.
Qed.

(** X11. A run reports the function warnings first, in the order of the walk
    (the marked functions, in the order of their warnings, are a subsequence
    of the walk over the unit), then the variable warnings, and nothing
    else; the constexpr bits after the run are those after the function
    pass; and a run that starts with diagnostics audible ends with
    diagnostics audible. *)
Theorem HandleTranslationUnit_accounting sm sema TU CI :
  let CI' := snd (HandleTranslationUnit sm sema TU CI) in
  exists (fs : list (FunctionDecl * option Stmt)) (locs : list SourceLocation),
    reported (Diagnostics CI')
    = reported (Diagnostics CI)
      ++ map (fun fb => function_warning (funcBegin (fst fb))) fs
      ++ map variable_warning locs
    /\ sublist (map function_node fs) (preorder_Decl TU)
    /\ Forall (markable sm sema TU CI) fs
    /\ Forall (fun L => exists K var,
                 In (N_Stmt (DeclStmt L [D_Var K var])) (preorder_Decl TU))
              locs
    /\ constexprDecls CI' = constexprDecls (function_pass sm sema TU CI)
    /\ (SuppressAllDiagnostics (Diagnostics CI) = false ->
        SuppressAllDiagnostics (Diagnostics CI') = false).
Proof.
  intros CI'. subst CI'. rewrite HandleTranslationUnit_passes.
  destruct (variable_pass_framed sm TU (function_pass sm sema TU CI))
    as (locs & Hrun & _ & Hlocs).
  specialize (Hrun []). rewrite emit_all_nil in Hrun. rewrite Hrun.
  pose proof (function_pass_fold sm sema TU CI) as Hfold.
  destruct (function_fold_accounting sm sema (preorder_Decl TU) CI)
    as (fs & Hsub & Hfs & Hrep & _).
  rewrite <- Hfold in Hrep.
  exists fs, locs. simpl. rewrite Hrep, <- app_assoc.
  split; [reflexivity|]. split; [exact Hsub|]. split; [exact Hfs|]. split.
  - eapply List.Forall_impl; [|exact Hlocs].
    intros L (K & var & Hin & _). exists K, var. exact Hin.
  - split; [reflexivity|]. apply function_pass_stays_audible.
Qed.

Lemma variable_walk_no_function sm nodes CI :
  (forall func Body,
     In (N_Decl (D_Function func Body)) nodes ->
     isWrittenInMainFile sm (funcBegin func) = false) ->
  Traverse (ConstexprVarDeclFunctionASTVisitor.Visit sm) nodes CI = (true, CI).
Proof.
  induction nodes as [|n rest IH]; intros Hout; [reflexivity|].
  simpl. unfold bind.
  assert (Hn : ConstexprVarDeclFunctionASTVisitor.Visit sm n CI = (true, CI)).
  { destruct n as [[K|alias TN|K isDef ms|K VD|func Body|K ds]|St];
      try reflexivity.
    simpl. unfold ConstexprVarDeclFunctionASTVisitor.VisitFunctionDecl.
    rewrite (Hout func Body (or_introl eq_refl)). reflexivity. }
  rewrite Hn. apply IH. intros func Body Hin. apply (Hout func Body).
  right. exact Hin.
Qed.

(** X12. A unit none of whose functions starts in the primary file (a unit
    without functions among them, whatever variables it declares at
    namespace scope) goes through the run with the state unchanged: nothing
    is marked, nothing is reported, suppression is not touched. *)
Theorem HandleTranslationUnit_nothing_to_do sm sema TU CI :
  (forall func Body,
     In (N_Decl (D_Function func Body)) (preorder_Decl TU) ->
     isWrittenInMainFile sm (funcBegin func) = false) ->
  HandleTranslationUnit sm sema TU CI = (tt, CI).
Proof.
  intros Hout.
  assert (Hfn : function_pass sm sema TU CI = CI).
  { rewrite function_pass_fold. apply quiet_pass_noop.
    apply List.Forall_forall. intros n Hn.
    destruct n as [[K|alias TN|K isDef ms|K VD|func Body|K ds]|St];
      try exact I.
    left. unfold probed. rewrite (Hout func Body Hn). reflexivity. }
  unfold HandleTranslationUnit, bind. unfold function_pass in Hfn.
  destruct (TraverseDecl (ConstexprFunctionASTVisitor.Visit sm sema) TU CI)
    as [ok1 CI1].
  simpl in Hfn. subst CI1. unfold TraverseDecl.
  rewrite (variable_walk_no_function sm (preorder_Decl TU) CI Hout).
  reflexivity.
Qed.

Lemma HandleTranslationUnit_nothing_to_do_witness :
  HandleTranslationUnit in_main_below_1000 permissive header_unit fresh
  = (tt, fresh)
  /\ HandleTranslationUnit in_main_below_1000 permissive
       (D_Context TranslationUnit [D_Var Var x_var]) fresh
     = (tt, fresh).
Proof.
  split.
  - apply (HandleTranslationUnit_nothing_to_do in_main_below_1000 permissive
             header_unit fresh).
    intros func Body Hin. simpl in Hin.
    destruct Hin as [H | [H | [H | [H | [H | []]]]]]; try discriminate.
    injection H as <- <-. reflexivity.
  - apply (HandleTranslationUnit_nothing_to_do in_main_below_1000 permissive
             (D_Context TranslationUnit [D_Var Var x_var]) fresh).
    intros func Body Hin. simpl in Hin.
    destruct Hin as [H | [H | []]]; discriminate.
Defined.

(** X13. Running the whole tool a second time on the unit it has just been
    run on marks no further function and repeats no function warning, but
    repeats every variable warning of the first run: the variable pass
    records nothing in the tree. *)
Theorem HandleTranslationUnit_again sm sema TU CI :
  let once := snd (HandleTranslationUnit sm sema TU CI) in
  let twice := snd (HandleTranslationUnit sm sema TU once) in
  exists locs,
    reported (Diagnostics once)
    = reported (Diagnostics (function_pass sm sema TU CI))
      ++ map variable_warning locs
    /\ reported (Diagnostics twice)
       = reported (Diagnostics once) ++ map variable_warning locs
    /\ constexprDecls twice = constexprDecls once.
Proof.
  intros once twice. subst once twice.
  rewrite !HandleTranslationUnit_passes.
  set (F := function_pass sm sema TU CI).
  destruct (variable_pass_framed sm TU F) as (locs & Hrun & _ & _).
  pose proof (Hrun []) as Hfirst. rewrite emit_all_nil in Hfirst.
  simpl in Hfirst. rewrite Hfirst.
  assert (Hquiet :
    Forall (quiet sm sema (emit_all (map variable_warning locs) F))
           (preorder_Decl TU)).
  { pose proof (pass_leaves_quiet sm sema (preorder_Decl TU) [] CI
                  (List.Forall_nil _)) as H.
    simpl in H. rewrite <- function_pass_fold in H. fold F in H.
    eapply List.Forall_impl; [|exact H].
    intros n Hn. destruct n as [[ | | | |func Body| ]|]; exact Hn. }
  assert (Hsecond : function_pass sm sema TU
                      (emit_all (map variable_warning locs) F)
                    = emit_all (map variable_warning locs) F).
  { rewrite function_pass_fold. apply quiet_pass_noop. exact Hquiet. }
  rewrite Hsecond, Hrun. exists locs. simpl. rewrite app_assoc.
  repeat split.
Qed.

Lemma variable_visit_descends sm func Body CI :
  isWrittenInMainFile sm (funcBegin func) = true ->
  funcID func ∉ constexprDecls CI ->
  ConstexprVarDeclFunctionASTVisitor.VisitFunctionDecl sm func Body CI
  = (true,
     snd (Traverse ConstexprVarDeclVisitor.Visit
            (preorder_Decl (D_Function func Body)) CI)).
Proof.
  intros Hfile Hflag.
  unfold ConstexprVarDeclFunctionASTVisitor.VisitFunctionDecl.
  rewrite Hfile. cbn [negb]. unfold bind, isConstexpr.
  rewrite (bool_decide_eq_false_2 _ Hflag).
  unfold TraverseFunctionDecl, TraverseDecl.
  destruct (Traverse _ _ CI). reflexivity.
Qed.

Lemma VisitDeclStmt_emits L K var pre CI :
  suppressed CI = false ->
  variable_qualifies var CI = true ->
  VisitDeclStmt L [D_Var K var] (emit_all pre CI)
  = (true, emit_all (pre ++ [variable_warning L]) CI).
Proof.
  intros Hs Hq. rewrite VisitDeclStmt_single.
  change (variable_qualifies var (emit_all pre CI))
    with (variable_qualifies var CI).
  rewrite Hq, Report_emit by exact Hs. rewrite emit_all_app. reflexivity.
Qed.

(** X14. A function of the primary file defined inside another one (a member
    function of a local class), neither of them constexpr: the variable pass
    walks the inner body once from the outer function and once from the
    inner one, and a qualifying local of the inner function is reported
    twice, with the same fix-it. *)
Theorem nested_function_locals_reported_twice
    sm K0 f g LS L TK K var CI :
  isWrittenInMainFile sm (funcBegin f) = true ->
  isWrittenInMainFile sm (funcBegin g) = true ->
  funcID f ∉ constexprDecls CI ->
  funcID g ∉ constexprDecls CI ->
  SuppressAllDiagnostics (Diagnostics CI) = false ->
  variable_qualifies var CI = true ->
  reported (Diagnostics (variable_pass sm (nested_in K0 f g LS L TK K var) CI))
  = reported (Diagnostics CI) ++ [variable_warning L; variable_warning L].
Proof.
  intros Hf Hg Hfid Hgid Hs Hq.
  assert (Hrun : variable_pass sm (nested_in K0 f g LS L TK K var) CI
                 = emit_all [variable_warning L; variable_warning L] CI).
  { unfold variable_pass, TraverseDecl, nested_in.
    cbn [preorder_Decl preorder_Stmt flat_map app Traverse
         ConstexprVarDeclFunctionASTVisitor.Visit].
    unfold bind, ret. cbv beta iota.
    rewrite (variable_visit_descends sm f _ CI Hf Hfid).
    cbn [preorder_Decl preorder_Stmt flat_map app Traverse
         ConstexprVarDeclVisitor.Visit snd].
    unfold bind, ret. cbv beta iota.
    change (VisitDeclStmt LS
              [D_Tag TK true
                 [D_Function g
                    (Some (CompoundStmt [DeclStmt L [D_Var K var]]))]] CI)
      with (true, CI).
    cbv beta iota.
    rewrite <- (emit_all_nil CI) at 1.
    rewrite (VisitDeclStmt_emits L K var [] CI Hs Hq).
    cbv beta iota. cbn [snd app].
    rewrite (variable_visit_descends sm g _ (emit_all [variable_warning L] CI)
               Hg Hgid).
    cbn [preorder_Decl preorder_Stmt flat_map app Traverse
         ConstexprVarDeclVisitor.Visit snd].
    unfold bind, ret. cbv beta iota.
    rewrite (VisitDeclStmt_emits L K var [variable_warning L] CI Hs Hq).
    reflexivity. }
  rewrite Hrun. reflexivity.
Qed.

Lemma nested_function_locals_reported_twice_witness :
  reported (Diagnostics
    (variable_pass in_main_below_1000
       (nested_in TranslationUnit outer_fn inner_fn 40 60 CXXRecord Var x_var)
       fresh))
  = [] ++ [variable_warning 60; variable_warning 60].
Proof.
  apply (nested_function_locals_reported_twice in_main_below_1000
           TranslationUnit outer_fn inner_fn 40 60 CXXRecord Var x_var fresh
           eq_refl eq_refl (not_elem_of_empty _) (not_elem_of_empty _)
           eq_refl eq_refl).
Defined.

(** ** Where the statement checker stops *)

(** X15. The checker stops at the first declarator it rejects: whatever
    follows a rejected declarator has no influence on the answer, on
    [Cxx1yLoc] or on what is reported. *)
Theorem CheckConstexprDeclStmt_stops_at_rejected
    SemaRef Dcl L pre D post Cxx1yLoc CI :
  decl_allowed D = false ->
  CheckConstexprDeclStmt SemaRef Dcl L (pre ++ D :: post) Cxx1yLoc CI
  = CheckConstexprDeclStmt SemaRef Dcl L (pre ++ [D]) Cxx1yLoc CI.
Proof.
  intros HD.
  rewrite (CheckConstexprDeclStmt_app SemaRef Dcl L pre (D :: post)).
  rewrite (CheckConstexprDeclStmt_app SemaRef Dcl L pre [D]).
  destruct (CheckConstexprDeclStmt SemaRef Dcl L pre Cxx1yLoc CI)
    as [[ok Cx'] CI'].
  destruct ok; [|reflexivity].
  change (D :: post) with ([D] ++ post).
  rewrite (CheckConstexprDeclStmt_app SemaRef Dcl L [D] post).
  destruct (CheckConstexprDeclStmt_step SemaRef Dcl L D [] Cx' CI')
    as (news & _ & Hstep).
  rewrite HD in Hstep. destruct Hstep as [_ ->]. reflexivity.
Qed.

Lemma CheckConstexprDeclStmt_stops_at_rejected_witness :
  CheckConstexprDeclStmt permissive log_fn 30
    ([D_Var Var x_var] ++ D_Leaf Label :: [D_Var Var calls_var]) 0 fresh
  = CheckConstexprDeclStmt permissive log_fn 30
      ([D_Var Var x_var] ++ [D_Leaf Label]) 0 fresh.
Proof.
  apply (CheckConstexprDeclStmt_stops_at_rejected permissive log_fn 30
           [D_Var Var x_var] (D_Leaf Label) [D_Var Var calls_var] 0 fresh).
  reflexivity.
Defined.

(** ** The parameter checker inside the probe *)

(** X16. While diagnostics are suppressed, as they are when the function
    pass calls it, the parameter checker leaves the state untouched, and it
    answers true exactly when every parameter type is dependent or
    literal. *)
Theorem CheckConstexprParameterTypes_silent FD CI :
  SuppressAllDiagnostics (Diagnostics CI) = true ->
  CheckConstexprParameterTypes FD CI
  = (forallb (fun P => isDependentType (param_type P)
                       || isLiteralType (param_type P)) (params FD),
     CI).
Proof.
  intros Hs. unfold CheckConstexprParameterTypes.
  apply CheckConstexprParameterTypes_from_suppressed. exact Hs.
Qed.

Lemma CheckConstexprParameterTypes_silent_witness :
  CheckConstexprParameterTypes h_fn (mkCI ∅ (mkEngine true []))
  = (false, mkCI ∅ (mkEngine true [])).
Proof.
  exact (CheckConstexprParameterTypes_silent h_fn (mkCI ∅ (mkEngine true []))
           eq_refl).
Defined.
